(** * School Management API: the generic CRUD and session core

    A shallow embedding of [main.py] and [schemas.py].  Request handlers are
    computations over an explicit world (the document store and the positions
    of the clock, entropy and identifier supplies); a raised exception aborts
    the handler and keeps the writes made before it, as in the source, which
    uses no transactions. *)

From Stdlib Require Import ZArith NArith Ascii String Strings.Byte List Bool Lia.
From Stdlib Require Import Sorting.Sorted.
From stdpp Require Import base option list gmap strings fin_maps.

Local Open Scope string_scope.
Local Open Scope list_scope.
Local Open Scope Z_scope.

Set Warnings "-register-all,-clear-no-such-hyp".

(** ** Strings and bytes *)

Module Str.

(** [str.lower] on the ASCII range: A..Z are shifted to a..z, every other
    character is kept. *)
Definition lower_char (c : ascii) : ascii :=
  let n := N_of_ascii c in
  if ((65 <=? n) && (n <=? 90))%N then ascii_of_N (n + 32) else c.

Fixpoint lower (s : string) : string :=
  match s with
  | EmptyString => EmptyString
  | String c s' => String (lower_char c) (lower s')
  end.

(** Truthiness of an optional header value: [None] and [EmptyString] are falsy. *)
Definition truthy (o : option string) : bool :=
  match o with
  | Some (String _ _) => true
  | _ => false
  end.

Definition hex_digit (n : N) : ascii :=
  if (n <? 10)%N then ascii_of_N (48 + n) else ascii_of_N (87 + n).

(** [bytes.hex]: two lowercase hexadecimal digits per byte. *)
Fixpoint hex (bs : list byte) : string :=
  match bs with
  | [] => EmptyString
  | b :: bs' =>
      let n := Byte.to_N b in
      String (hex_digit (n / 16)) (String (hex_digit (n mod 16)) (hex bs'))
  end.

Definition hex_value (c : ascii) : option N :=
  let n := N_of_ascii c in
  if ((48 <=? n) && (n <=? 57))%N then Some (n - 48)%N
  else if ((97 <=? n) && (n <=? 102))%N then Some (n - 87)%N
  else if ((65 <=? n) && (n <=? 70))%N then Some (n - 55)%N
  else None.

(** Pairs of hexadecimal digits to bytes; [None] on an odd length or on a
    character that is not a hexadecimal digit. *)
Fixpoint fromhex (s : string) : option (list byte) :=
  match s with
  | EmptyString => Some []
  | String _ EmptyString => None
  | String h (String l s') =>
      match hex_value h, hex_value l, fromhex s' with
      | Some a, Some b, Some bs =>
          match Byte.of_N (a * 16 + b) with
          | Some x => Some (x :: bs)
          | None => None
          end
      | _, _, _ => None
      end
  end.

End Str.

(** ** Values, documents and the store *)

(** The store's identifier, twelve bytes. *)
Definition ObjectId := list byte.

#[global] Instance byte_eq_decision : EqDecision byte := Byte.byte_eq_dec.

(** Modelled from the spec: the identifier codec of the [bson] package, which
    is not part of the sources.  A string is a well-formed identifier when it
    has 24 characters, all of them hexadecimal digits. *)
Definition ObjectId_of_str (s : string) : option ObjectId :=
  if Nat.eqb (String.length s) 24 then Str.fromhex s else None.

Definition str_of_ObjectId (o : ObjectId) : string := Str.hex o.

(** JSON values of a request body together with the timestamps the handlers
    add.  Floats and nested objects, which no schema field accepts, are left
    out. *)
Inductive value : Type :=
  | VNull
  | VBool (b : bool)
  | VInt (z : Z)
  | VStr (s : string)
  | VList (l : list value)
  | VTime (t : Z).

Fixpoint value_eqb (a b : value) : bool :=
  match a, b with
  | VNull, VNull => true
  | VBool x, VBool y => Bool.eqb x y
  | VInt x, VInt y => Z.eqb x y
  | VStr x, VStr y => String.eqb x y
  | VTime x, VTime y => Z.eqb x y
  | VList xs, VList ys =>
      (fix go (xs ys : list value) : bool :=
         match xs, ys with
         | [], [] => true
         | x :: xs', y :: ys' => value_eqb x y && go xs' ys'
         | _, _ => false
         end) xs ys
  | _, _ => false
  end.

(** A dictionary with string keys: a request body, or the fields of a stored
    document. *)
Abbreviation Dict := (gmap string value).

Record Doc : Type := mkDoc { doc_id : ObjectId; doc_fields : Dict }.

(** One condition of a query filter; a filter is the conjunction of its
    conditions and [{}] is the empty list. *)
Inductive cond : Type :=
  | IdIs (o : ObjectId)
  | FieldIs (k : string) (v : value).

Definition holds (d : Doc) (c : cond) : bool :=
  match c with
  | IdIs o => bool_decide (doc_id d = o)
  | FieldIs k v =>
      match doc_fields d !! k with
      | Some v' => value_eqb v' v
      | None => false
      end
  end.

Definition matches (flt : list cond) (d : Doc) : bool := forallb (holds d) flt.

(** The fields a filter fixes by equality, used when an upsert inserts. *)
Fixpoint filter_fields (flt : list cond) : Dict :=
  match flt with
  | [] => ∅
  | FieldIs k v :: flt' => <[k := v]> (filter_fields flt')
  | IdIs _ :: flt' => filter_fields flt'
  end.

Fixpoint filter_id (flt : list cond) : option ObjectId :=
  match flt with
  | [] => None
  | IdIs o :: _ => Some o
  | FieldIs _ _ :: flt' => filter_id flt'
  end.

(** ** The world of a request *)

(** What a handler reads from outside: the clock, the operating system's
    entropy, the identifiers the store hands out, and the two string
    validators of the schema library that the sources only name. *)
Record Env : Type := mkEnv {
  clock : nat -> Z;
  entropy : nat -> byte;
  oid_supply : nat -> ObjectId;
  email_validator : string -> option string;
  int_of_str : string -> option Z
}.

Record World : Type := mkWorld {
  db : gmap string (list Doc);
  clock_reads : nat;
  entropy_used : nat;
  oids_issued : nat
}.

Inductive Exn : Type :=
  | HTTPException (status_code : Z) (detail : string)
  | ValidationError (errors : list (string * string))
  | WriteError (msg : string)
  | KeyError (key : string).

Inductive Outcome (A : Type) : Type :=
  | Return (a : A)
  | Raise (e : Exn).
Arguments Return {A} a.
Arguments Raise {A} e.

Definition M (A : Type) : Type := World -> Outcome A * World.

Definition ret {A} (a : A) : M A := fun w => (Return a, w).
Definition raise {A} (e : Exn) : M A := fun w => (Raise e, w).
Definition bind {A B} (m : M A) (k : A -> M B) : M B :=
  fun w =>
    match m w with
    | (Return a, w') => k a w'
    | (Raise e, w') => (Raise e, w')
    end.

Declare Scope handler_scope.
Delimit Scope handler_scope with handler.
Notation "x <- c ;; k" := (bind c (fun x => k))
  (at level 100, c at next level, k at level 200, right associativity)
  : handler_scope.
Notation "c ;; k" := (bind c (fun _ => k))
  (at level 100, k at level 200, right associativity) : handler_scope.
Local Open Scope handler_scope.

(** ** The document store

    The store is a collaborator of the handlers: [database.py] and the driver
    behind it are not part of the sources.  A collection is the list of its
    documents in insertion order; a collection that was never written is
    empty.  Update paths are top-level field names. *)

Definition coll (w : World) (c : string) : list Doc := default [] (db w !! c).

Definition set_coll (c : string) (l : list Doc) (w : World) : World :=
  mkWorld (<[c := l]> (db w)) (clock_reads w) (entropy_used w) (oids_issued w).

(** Modelled from the spec: [find_one(flt)] of the store, the first document
    that satisfies the filter. *)
Definition find_one (c : string) (flt : list cond) : M (option Doc) :=
  fun w => (Return (List.find (matches flt) (coll w c)), w).

(** The world after one more reading of the clock. *)
Definition tick (w : World) : World :=
  mkWorld (db w) (S (clock_reads w)) (entropy_used w) (oids_issued w).

(** The order of two values under an ascending sort: kinds are ranked, values
    of one kind are compared; arrays are not ordered among themselves. *)
Definition bson_rank (v : value) : Z :=
  match v with
  | VNull => 1 | VInt _ => 2 | VStr _ => 3 | VList _ => 5
  | VBool _ => 8 | VTime _ => 9
  end.

Definition bson_lt (a b : value) : bool :=
  match a, b with
  | VInt x, VInt y => x <? y
  | VStr x, VStr y => String.ltb x y
  | VBool x, VBool y => negb x && y
  | VTime x, VTime y => x <? y
  | _, _ => bson_rank a <? bson_rank b
  end.

Definition sort_key (k : string) (d : Doc) : value :=
  default VNull (doc_fields d !! k).

Fixpoint insert_desc (k : string) (d : Doc) (l : list Doc) : list Doc :=
  match l with
  | [] => [d]
  | e :: l' =>
      if bson_lt (sort_key k e) (sort_key k d) then d :: e :: l'
      else e :: insert_desc k d l'
  end.

Definition sort_desc (k : string) (l : list Doc) : list Doc :=
  fold_right (insert_desc k) [] l.

(** [.limit(n)]: zero means no limit, a negative number limits like its
    absolute value. *)
Definition limit_to (n : Z) (l : list Doc) : list Doc :=
  if n =? 0 then l else take (Z.abs_nat n) l.

(** Modelled from the spec: [find({}).sort(k, -1).limit(n)] of the store. *)
Definition find_sorted (c : string) (k : string) (n : Z) : M (list Doc) :=
  fun w => (Return (limit_to n (sort_desc k (coll w c))), w).

Section WithEnv.

Context (E : Env).

(** [datetime.now(timezone.utc)]: one reading of the clock. *)
Definition now : M value :=
  fun w =>
    (Return (VTime (clock E (clock_reads w))), tick w).

(** [os.urandom(n)]: the next [n] bytes of entropy. *)
Definition urandom (n : nat) : M (list byte) :=
  fun w =>
    (Return (map (entropy E) (seq (entropy_used w) n)),
     mkWorld (db w) (clock_reads w) (entropy_used w + n)%nat (oids_issued w)).

Definition fresh_oid : M ObjectId :=
  fun w =>
    (Return (oid_supply E (oids_issued w)),
     mkWorld (db w) (clock_reads w) (entropy_used w) (S (oids_issued w))).

(** Modelled from the spec: [insert_one(doc)] of the store, which assigns
    the identifier. *)
Definition insert_one (c : string) (fields : Dict) : M ObjectId :=
  o <- fresh_oid ;;
  fun w => (Return o, set_coll c (coll w c ++ [mkDoc o fields]) w).

(** Replaces the first element satisfying [p] by its image under [f]. *)
Fixpoint update_first (p : Doc -> bool) (f : Doc -> Doc) (l : list Doc)
  : list Doc :=
  match l with
  | [] => []
  | d :: l' => if p d then f d :: l' else d :: update_first p f l'
  end.

Definition apply_set (patch : Dict) (d : Doc) : Doc :=
  mkDoc (doc_id d) (patch ∪ doc_fields d).

Definition conflicting (a b : Dict) : bool :=
  bool_decide (dom a ∩ dom b ≠ (∅ : gset string)).

(** Modelled from the spec:
    [update_one(flt, {"$set": s, "$setOnInsert": soi}, upsert)] of the
    store, returning the matched count.  The store refuses an update in which the two
    operators name the same path.  When nothing matches and [upsert] is
    set, it inserts the filter's equality fields with both operators
    applied. *)
Definition update_one (c : string) (flt : list cond) (s soi : Dict)
    (upsert : bool) : M nat :=
  if conflicting s soi then
    raise (WriteError "Updating the path would create a conflict")
  else
    fun w =>
      if existsb (matches flt) (coll w c) then
        (Return 1%nat,
         set_coll c (update_first (matches flt) (apply_set s) (coll w c)) w)
      else if upsert then
        (o <- match filter_id flt with
              | Some o => ret o
              | None => fresh_oid
              end ;;
         fun w' =>
           (Return 0%nat,
            set_coll c
              (coll w' c ++ [mkDoc o (s ∪ soi ∪ filter_fields flt)]) w')) w
      else (Return 0%nat, w).

Fixpoint remove_first (p : Doc -> bool) (l : list Doc) : list Doc :=
  match l with
  | [] => []
  | d :: l' => if p d then l' else d :: remove_first p l'
  end.

(** Modelled from the spec: [delete_one(flt)] of the store, returning the
    deleted count. *)
Definition delete_one (c : string) (flt : list cond) : M nat :=
  fun w =>
    if existsb (matches flt) (coll w c) then
      (Return 1%nat, set_coll c (remove_first (matches flt) (coll w c)) w)
    else (Return 0%nat, w).

End WithEnv.

(** ** Schemas ([schemas.py]) *)

Inductive ftype : Type :=
  | TStr
  | TInt
  | TEmailStr
  | TLiteral (allowed : list string)
  | TList (t : ftype)
  | TOptional (t : ftype).

(** A declared field; [fdefault = None] marks a required field. *)
Record Field : Type := mkField {
  fname : string;
  fty : ftype;
  fdefault : option value
}.

Abbreviation Schema := (list Field).

Definition required (n : string) (t : ftype) : Field := mkField n t None.
Definition optional (n : string) (t : ftype) : Field :=
  mkField n (TOptional t) (Some VNull).

Definition User : Schema :=
  [ required "email" TEmailStr;
    optional "name" TStr;
    mkField "role" (TLiteral ["admin"; "viewer"]) (Some (VStr "viewer")) ].

Definition NewsArticle : Schema :=
  [ required "title" TStr;
    required "content" TStr;
    optional "author" TStr;
    optional "tags" (TList TStr);
    optional "cover_image" TStr;
    optional "published_at" TStr ].

Definition Announcement : Schema :=
  [ required "title" TStr;
    required "content" TStr;
    optional "start_date" TStr;
    optional "end_date" TStr;
    optional "audience" (TList TStr) ].

Definition GalleryItem : Schema :=
  [ optional "title" TStr;
    required "image_url" TStr;
    optional "category" TStr;
    optional "caption" TStr ].

Definition AdmissionInfo : Schema :=
  [ required "year" TStr;
    required "description" TStr;
    optional "requirements" (TList TStr);
    optional "important_dates" (TList TStr);
    optional "registration_link" TStr ].

Definition AcademicCalendarEvent : Schema :=
  [ required "title" TStr;
    required "date" TStr;
    optional "description" TStr;
    optional "category" TStr ].

Definition ScheduleEntry : Schema :=
  [ required "type" (TLiteral ["pelajaran"; "ujian"; "piket_guru"]);
    optional "day" TStr;
    optional "time" TStr;
    optional "subject" TStr;
    optional "class_name" TStr;
    optional "teacher" TStr;
    optional "notes" TStr ].

Definition OrgNode : Schema :=
  [ required "title" TStr;
    optional "name" TStr;
    optional "parent_id" TStr;
    mkField "order" (TOptional TInt) (Some (VInt 0)) ].

Definition Staff : Schema :=
  [ required "name" TStr;
    required "role" TStr;
    optional "email" TEmailStr;
    optional "phone" TStr;
    optional "photo_url" TStr;
    optional "department" TStr ].

Definition Extracurricular : Schema :=
  [ required "name" TStr;
    optional "coach" TStr;
    optional "description" TStr;
    optional "schedule" TStr;
    optional "photo_url" TStr ].

Definition SchoolPage : Schema :=
  [ required "key"
      (TLiteral ["sejarah"; "visi_misi"; "fasilitas"; "kontak_alamat"]);
    optional "title" TStr;
    optional "content" TStr ].

Definition Achievement : Schema :=
  [ required "title" TStr;
    optional "description" TStr;
    optional "date" TStr;
    optional "images" (TList TStr) ].

(** The names a schema declares. *)
Definition declared (sch : Schema) : list string := map fname sch.

Section Validation.

Context (E : Env).

(** Validation of one value against a field type, in the schema library's
    default (lax) mode: a string field takes a string only, an integer
    field also takes a boolean or a numeric string. *)
Fixpoint coerce (t : ftype) (v : value) : option value :=
  match t with
  | TStr => match v with VStr s => Some (VStr s) | _ => None end
  | TInt =>
      match v with
      | VInt z => Some (VInt z)
      | VBool b => Some (VInt (if b then 1 else 0))
      | VStr s => VInt <$> int_of_str E s
      | _ => None
      end
  | TEmailStr =>
      match v with VStr s => VStr <$> email_validator E s | _ => None end
  | TLiteral l =>
      match v with
      | VStr s => if bool_decide (s ∈ l) then Some (VStr s) else None
      | _ => None
      end
  | TList t' =>
      match v with
      | VList vs => VList <$> mapM (coerce t') vs
      | _ => None
      end
  | TOptional t' =>
      match v with VNull => Some VNull | _ => coerce t' v end
  end.

(** One field of the model: the coerced input, the default when the input
    lacks an optional field, or an error. *)
Definition validate_field (f : Field) (data : Dict)
  : (string * string) + value :=
  match data !! fname f with
  | Some v =>
      match coerce (fty f) v with
      | Some v' => inr v'
      | None => inl (fname f, "invalid")
      end
  | None =>
      match fdefault f with
      | Some d => inr d
      | None => inl (fname f, "missing")
      end
  end.

(** All errors are collected.  The models of [schemas.py] are declared
    without a configuration, so the schema library's default applies: only
    declared fields are read, and a key of the input that the schema does
    not declare is ignored. *)
Fixpoint validate_fields (sch : Schema) (data : Dict)
  : list (string * string) * Dict :=
  match sch with
  | [] => ([], ∅)
  | f :: sch' =>
      let '(errs, out) := validate_fields sch' data in
      match validate_field f data with
      | inl e => (e :: errs, out)
      | inr v => (errs, <[fname f := v]> out)
      end
  end.

(** Instantiation of the model from the keyword arguments [data], then
    [model_dump]. *)
Definition model_validate (sch : Schema) (data : Dict)
  : list (string * string) + Dict :=
  match validate_fields sch data with
  | ([], out) => inr out
  | (errs, _) => inl errs
  end.

End Validation.

(** ** Request handlers ([main.py]) *)

Definition MASTER_ADMIN_EMAIL : string := "caproktaroy03@gmail.com".

Record AuthResponse : Type := mkAuthResponse {
  token : string;
  email : string
}.

(** The registry of content schemas, local to [create_item] in the source. *)
Definition schema_map : gmap string Schema :=
  list_to_map
    [ ("newsarticle", NewsArticle);
      ("announcement", Announcement);
      ("galleryitem", GalleryItem);
      ("admissioninfo", AdmissionInfo);
      ("academiccalendarevent", AcademicCalendarEvent);
      ("scheduleentry", ScheduleEntry);
      ("orgnode", OrgNode);
      ("staff", Staff);
      ("extracurricular", Extracurricular);
      ("schoolpage", SchoolPage);
      ("achievement", Achievement) ].

Definition known_collections : list string :=
  [ "newsarticle"; "announcement"; "galleryitem"; "admissioninfo";
    "academiccalendarevent"; "scheduleentry"; "orgnode"; "staff";
    "extracurricular"; "schoolpage"; "achievement" ].

(** A document as a handler returns it: the fields, with the identifier
    under ["_id"] in its external form. *)
Definition item_of (d : Doc) : Dict :=
  <["_id" := VStr (str_of_ObjectId (doc_id d))]> (doc_fields d).

Definition obj_id (id_str : string) : M ObjectId :=
  match ObjectId_of_str id_str with
  | Some o => ret o
  | None => raise (HTTPException 400 "Invalid id")
  end.

Definition public_list (collection : string) (limit : Z) : M (list Dict) :=
  items <- find_sorted collection "created_at" limit ;;
  ret (map item_of items).

Definition get_page (key : string) : M Dict :=
  doc <- find_one "schoolpage" [FieldIs "key" (VStr key)] ;;
  match doc with
  | None =>
      ret (list_to_map
             [("key", VStr key); ("title", VStr EmptyString); ("content", VStr EmptyString)])
  | Some d => ret (item_of d)
  end.

Section Handlers.

Context (E : Env).

(** The guard of the admin routes.  It runs before the handler's body. *)
Definition ensure_admin (auth_token : option string) : M value :=
  if negb (Str.truthy auth_token) then
    raise (HTTPException 401 "Missing auth token")
  else
    session <- find_one "session"
                 [ FieldIs "token" (VStr (default EmptyString auth_token));
                   FieldIs "active" (VBool true) ] ;;
    match session with
    | None => raise (HTTPException 401 "Invalid or expired token")
    | Some s =>
        match doc_fields s !! "email" with
        | Some e => ret e
        | None => raise (KeyError "email")
        end
    end.

(** [payload_email] is the address of the already validated request. *)
Definition login (payload_email : string) : M AuthResponse :=
  let email := Str.lower payload_email in
  if negb (String.eqb email MASTER_ADMIN_EMAIL) then
    raise (HTTPException 403 "Anda tidak memiliki akses admin")
  else
    upd <- now E ;;
    crt <- now E ;;
    update_one E "user" [FieldIs "email" (VStr email)]
      (list_to_map
         [ ("email", VStr email); ("name", VStr "Admin Master");
           ("role", VStr "admin"); ("updated_at", upd) ])
      {["created_at" := crt]} true ;;
    rnd <- urandom E 24 ;;
    let token := Str.hex rnd in
    crt' <- now E ;;
    upd' <- now E ;;
    insert_one E "session"
      (list_to_map
         [ ("email", VStr email); ("token", VStr token);
           ("active", VBool true); ("created_at", crt');
           ("updated_at", upd') ]) ;;
    ret (mkAuthResponse token email).

Definition logout (auth_token : option string) : M string :=
  if negb (Str.truthy auth_token) then ret "ok"
  else
    upd <- now E ;;
    update_one E "session" [FieldIs "token" (VStr (default EmptyString auth_token))]
      (list_to_map [("active", VBool false); ("updated_at", upd)]) ∅ false ;;
    ret "logged out".

Definition create_item (collection : string) (data : Dict) : M string :=
  match schema_map !! collection with
  | None => raise (HTTPException 400 "Unknown collection")
  | Some Model =>
      match model_validate E Model data with
      | inl errs => raise (ValidationError errs)
      | inr doc =>
          crt <- now E ;;
          let doc := <["created_at" := crt]> doc in
          upd <- now E ;;
          let doc := <["updated_at" := upd]> doc in
          inserted_id <- insert_one E collection doc ;;
          ret (str_of_ObjectId inserted_id)
      end
  end.

(** A route that declares [email: str = Depends(ensure_admin)]: the guard
    runs first and its result is passed to the handler. *)
Definition depends_admin {A} (auth_token : option string)
    (handler : value -> M A) : M A :=
  email <- ensure_admin auth_token ;;
  handler email.

Definition admin_list (collection : string) (email : value) (limit : Z)
  : M (list Dict) :=
  items <- find_sorted collection "created_at" limit ;;
  ret (map item_of items).

Definition admin_create (collection : string) (data : Dict) (email : value)
  : M string :=
  create_item collection data.

Definition admin_update (collection item_id : string) (data : Dict)
    (email : value) : M string :=
  upd <- now E ;;
  let data := <["updated_at" := upd]> data in
  o <- obj_id item_id ;;
  matched_count <- update_one E collection [IdIs o] data ∅ false ;;
  if Nat.eqb matched_count 0 then raise (HTTPException 404 "Not found")
  else ret "updated".

Definition admin_delete (collection item_id : string) (email : value)
  : M string :=
  o <- obj_id item_id ;;
  deleted_count <- delete_one collection [IdIs o] ;;
  if Nat.eqb deleted_count 0 then raise (HTTPException 404 "Not found")
  else ret "deleted".

Definition set_page (key : string) (data : Dict) (email : value)
  : M string :=
  let data := <["key" := VStr key]> data in
  upd <- now E ;;
  let data := <["updated_at" := upd]> data in
  crt <- now E ;;
  update_one E "schoolpage" [FieldIs "key" (VStr key)] data
    {["created_at" := crt]} true ;;
  ret "saved".

End Handlers.

(** ** Requests and reachable worlds *)

Inductive Request : Type :=
  | Login (payload_email : string)
  | Logout (auth_token : option string)
  | PublicList (collection : string) (limit : Z)
  | AdminList (collection : string) (auth_token : option string) (limit : Z)
  | AdminCreate (collection : string) (data : Dict)
      (auth_token : option string)
  | AdminUpdate (collection item_id : string) (data : Dict)
      (auth_token : option string)
  | AdminDelete (collection item_id : string) (auth_token : option string)
  | GetPage (key : string)
  | SetPage (key : string) (data : Dict) (auth_token : option string).

(** The world a request leaves behind, whatever it answers. *)
Definition serve (E : Env) (r : Request) (w : World) : World :=
  match r with
  | Login e => snd (login E e w)
  | Logout t => snd (logout E t w)
  | PublicList c n => snd (public_list c n w)
  | AdminList c t n => snd (depends_admin t (fun e => admin_list c e n) w)
  | AdminCreate c d t => snd (depends_admin t (admin_create E c d) w)
  | AdminUpdate c i d t => snd (depends_admin t (admin_update E c i d) w)
  | AdminDelete c i t => snd (depends_admin t (admin_delete c i) w)
  | GetPage k => snd (get_page k w)
  | SetPage k d t => snd (depends_admin t (set_page E k d) w)
  end.



Definition empty_world : World := mkWorld ∅ 0 0 0.

Inductive reachable (E : Env) : World -> Prop :=
  | reach_empty : reachable E empty_world
  | reach_serve r w : reachable E w -> reachable E (serve E r w).

(** Every session document carries an email. *)
Definition sessions_have_email (w : World) : Prop :=
  Forall (fun s => is_Some (doc_fields s !! "email")) (coll w "session").

(** A document of the keyed page collection that carries the key [k]. *)
Definition has_key (k : string) (d : Doc) : bool :=
  holds d (FieldIs "key" (VStr k)).

Definition pages_with_key (k : string) (w : World) : nat :=
  length (List.filter (has_key k) (coll w "schoolpage")).

(** A stored document validates against a schema. *)
Definition conforms (E : Env) (sch : Schema) (d : Doc) : bool :=
  match model_validate E sch (doc_fields d) with
  | inr _ => true
  | inl _ => false
  end.

Definition is_hex_digit (c : ascii) : bool :=
  match Str.hex_value c with Some _ => true | None => false end.

(** A well-formed identifier string, in the words of the specification:
    the right length and no invalid character. *)
Definition well_formed_id (s : string) : bool :=
  Nat.eqb (String.length s) 24 && forallb is_hex_digit (list_ascii_of_string s).

(** An environment to run the handlers on concrete inputs: the clock shows
    the number of earlier readings, entropy counts up from zero, and the
    n-th identifier is the number n on twelve bytes. *)
Definition nth_byte (n : nat) : byte :=
  default x00 (Byte.of_N (N.of_nat n mod 256)).

Definition demo_env : Env :=
  mkEnv (fun n => Z.of_nat n) nth_byte
        (fun n => repeat x00 11 ++ [nth_byte n])
        (fun s => Some s) (fun _ => None).

(** ** Vocabulary of the statements *)

(** A handler keeps an invariant of the world, whatever it answers. *)
Definition preserves {A} (I : World -> Prop) (m : M A) : Prop :=
  forall w, I w -> I (snd (m w)).

(** Invariants that read one collection only. *)
Definition on_coll (c : string) (P : list Doc -> Prop) (w : World) : Prop :=
  P (coll w c).

Definition has_email (d : Doc) : Prop := is_Some (doc_fields d !! "email").

Abbreviation sessions_ok := (on_coll "session" (Forall has_email)).

(** A session document that is active and carries the token [t]. *)
Definition active_for (t : string) (s : Doc) : Prop :=
  doc_fields s !! "token" = Some (VStr t)
  /\ doc_fields s !! "active" = Some (VBool true).

(** The update a page write sends to the store: the payload with the path
    key and the time of the call written over it. *)
Definition page_patch (E : Env) (key : string) (data : Dict) (w : World) : Dict :=
  <["updated_at" := VTime (clock E (clock_reads w))]> (<["key" := VStr key]> data).

(** The update of a logout and the filter it is sent with. *)
Definition logout_patch (E : Env) (w : World) : Dict :=
  list_to_map
    [("active", VBool false); ("updated_at", VTime (clock E (clock_reads w)))].

Definition token_filter (auth_token : option string) : list cond :=
  [FieldIs "token" (VStr (default EmptyString auth_token))].

(** A payload without the keys its schema does not declare. *)
Definition declared_only (sch : Schema) (data : Dict) : Dict :=
  filter (fun kv => kv.1 ∈ declared sch) data.

(** Concrete worlds: one login of the master administrator, then one news
    article created with the token of that login. *)
Definition demo_token : string :=
  "000102030405060708090a0b0c0d0e0f1011121314151617".

Definition demo_article : Dict :=
  list_to_map [("title", VStr "Hello"); ("content", VStr "World")].

Definition demo_article_id : string := "000000000000000000000002".

Definition w_login : World :=
  serve demo_env (Login "caproktaroy03@gmail.com") empty_world.

Definition w_article : World :=
  serve demo_env (AdminCreate "newsarticle" demo_article (Some demo_token))
    w_login.

(** The spellings of an address, said without [Str.lower]: [e] is a
    capitalization of [m] when it has the characters of [m] in order, each
    one either as it stands in [m] or, where that is a lower-case letter,
    as its capital. *)
Definition upper_char (c : ascii) : ascii :=
  let n := N_of_ascii c in
  if ((97 <=? n) && (n <=? 122))%N then ascii_of_N (n - 32) else c.

Fixpoint is_capitalization (m e : string) : bool :=
  match m, e with
  | EmptyString, EmptyString => true
  | String a m', String b e' =>
      (Ascii.eqb b a || Ascii.eqb b (upper_char a)) && is_capitalization m' e'
  | _, _ => false
  end.

Definition is_capital (c : ascii) : bool :=
  let n := N_of_ascii c in ((65 <=? n) && (n <=? 90))%N.

Definition has_capital (s : string) : bool :=
  existsb is_capital (list_ascii_of_string s).



Definition w_two_articles : World :=
  serve demo_env
    (AdminCreate "newsarticle"
       (list_to_map [("title", VStr "Later"); ("content", VStr "News")])
       (Some demo_token)) w_article.

(** ** Vocabulary of the further properties *)

(** The placeholder [get_page] answers with when no page has the key. *)
Definition default_page (key : string) : Dict :=
  list_to_map
    [("key", VStr key); ("title", VStr EmptyString);
     ("content", VStr EmptyString)].

(** What entitles a request to change the store: a login of the master
    address, a logout that carries a token, or an admin write whose token
    passes the guard. *)
Definition entitled (r : Request) (w : World) : Prop :=
  match r with
  | Login e => Str.lower e = MASTER_ADMIN_EMAIL
  | Logout t => Str.truthy t = true
  | AdminCreate _ _ t | AdminUpdate _ _ _ t | AdminDelete _ _ t
  | SetPage _ _ t => exists e, ensure_admin t w = (Return e, w)
  | PublicList _ _ | AdminList _ _ _ | GetPage _ => False
  end.

(** Requests that write in place or not at all. *)
Definition in_place (r : Request) : bool :=
  match r with
  | Logout _ | PublicList _ _ | AdminList _ _ _ | AdminUpdate _ _ _ _
  | GetPage _ => true
  | Login _ | AdminCreate _ _ _ | AdminDelete _ _ _ | SetPage _ _ _ => false
  end.

(** The identifiers of a collection, in the order of the store. *)
Definition ids (w : World) (c : string) : list ObjectId :=
  map doc_id (coll w c).

(** The parts of a successful login: the filter and the update of the user
    upsert, the world after it, the token drawn, and the session inserted. *)
Definition login_user_filter : list cond :=
  [FieldIs "email" (VStr MASTER_ADMIN_EMAIL)].

Definition login_user_patch (upd : value) : Dict :=
  list_to_map
    [ ("email", VStr MASTER_ADMIN_EMAIL); ("name", VStr "Admin Master");
      ("role", VStr "admin"); ("updated_at", upd) ].

Definition after_user_upsert (E : Env) (w : World) : World :=
  snd (update_one E "user" login_user_filter
         (login_user_patch (VTime (clock E (clock_reads w))))
         {["created_at" := VTime (clock E (S (clock_reads w)))]} true
         (tick (tick w))).

Definition login_token (E : Env) (w : World) : string :=
  Str.hex (map (entropy E) (seq (entropy_used w) 24)).

Definition login_session (E : Env) (w : World) : Doc :=
  mkDoc (oid_supply E (oids_issued (after_user_upsert E w)))
    (list_to_map
       [ ("email", VStr MASTER_ADMIN_EMAIL);
         ("token", VStr (login_token E w));
         ("active", VBool true);
         ("created_at", VTime (clock E (S (S (clock_reads w)))));
         ("updated_at", VTime (clock E (S (S (S (clock_reads w)))))) ]).

(** A user document of the master administrator. *)
Definition is_master_user (d : Doc) : bool :=
  holds d (FieldIs "email" (VStr MASTER_ADMIN_EMAIL)).

Definition master_users (w : World) : nat :=
  length (List.filter is_master_user (coll w "user")).

(** A session document that carries the token [t], active or not. *)
Definition has_token (t : string) (d : Doc) : bool :=
  holds d (FieldIs "token" (VStr t)).

(** Properties of a collection that updates in place and removals keep. *)
Definition shrinking (P : list Doc -> Prop) : Prop :=
  (forall p f l, P l -> P (update_first p f l))
  /\ (forall p l, P l -> P (remove_first p l)).

(** A value has the type of a field.  This is what validation leaves behind,
    whatever it accepted: an integer where it took a boolean or a numeric
    string, a string of the allowed set for a closed enumeration, a list of
    typed values, and null only under an optional type. *)
Fixpoint has_type (t : ftype) (v : value) : bool :=
  match t with
  | TStr | TEmailStr => match v with VStr _ => true | _ => false end
  | TInt => match v with VInt _ => true | _ => false end
  | TLiteral l =>
      match v with VStr s => bool_decide (s ∈ l) | _ => false end
  | TList t' =>
      match v with VList vs => forallb (has_type t') vs | _ => false end
  | TOptional t' =>
      match v with VNull => true | _ => has_type t' v end
  end.

(** A declared field fails on a payload when the payload lacks it and the
    declaration gives no default, or when the payload's value for it is not
    of the declared type. *)
Definition field_fails (E : Env) (f : Field) (data : Dict) : Prop :=
  match data !! fname f with
  | Some v => coerce E (fty f) v = None
  | None => fdefault f = None
  end.

(** A normaliser that accepts what it produces, unchanged. *)
Definition idempotent (norm : string -> option string) : Prop :=
  forall s s', norm s = Some s' -> norm s' = Some s'.

(** A declaration the handlers can stamp: no field named twice, none named
    like a timestamp, and every default of the type of its field. *)
Definition stampable (E : Env) (sch : Schema) : Prop :=
  NoDup (declared sch)
  /\ ("created_at" ∉ declared sch)
  /\ ("updated_at" ∉ declared sch)
  /\ Forall (fun f => forall d, fdefault f = Some d ->
                        coerce E (fty f) d = Some d) sch.

(** The time a listed item was created, when it carries one. *)
Definition created_time (fields : Dict) : option Z :=
  match fields !! "created_at" with
  | Some (VTime t) => Some t
  | _ => None
  end.

(** [a] may be listed before [b]: both carry a time of creation and [a] is
    not the older. *)
Definition not_older (a b : Dict) : Prop :=
  exists ta tb,
    created_time a = Some ta /\ created_time b = Some tb /\ tb <= ta.

(** ** The health route ([test_database])

    The route reads the process's store handle, which may be absent, and two
    environment variables; it writes nothing.  A handle shows its name, when
    it has one, and either the names of its collections or the text of the
    error that listing them raised.  The characters of that text are the
    characters of this embedding's strings. *)

Record DbHandle : Type := mkDbHandle {
  handle_name : option string;
  list_collection_names : string + list string
}.

Record TestResponse : Type := mkTestResponse {
  backend : string;
  database : string;
  database_url : option string;
  database_name : option string;
  connection_status : string;
  collections : list string
}.

Definition test_database (db : option DbHandle)
    (getenv : string -> option string) : TestResponse :=
  let response :=
    mkTestResponse "✅ Running" "❌ Not Available" None None
      "Not Connected" [] in
  let response :=
    match db with
    | Some h =>
        let response :=
          mkTestResponse (backend response) "✅ Available"
            (Some "✅ Configured")
            (Some (default "✅ Connected" (handle_name h)))
            "Connected" (collections response) in
        match list_collection_names h with
        | inr names =>
            mkTestResponse (backend response) "✅ Connected & Working"
              (database_url response) (database_name response)
              (connection_status response) (take 20 names)
        | inl e =>
            mkTestResponse (backend response)
              (String.append "⚠️  Connected but Error: "
                 (String.substring 0 80 e))
              (database_url response) (database_name response)
              (connection_status response) (collections response)
        end
    | None =>
        mkTestResponse (backend response)
          "⚠️  Available but not initialized"
          (database_url response) (database_name response)
          (connection_status response) (collections response)
    end in
  let response :=
    mkTestResponse (backend response) (database response)
      (Some (if Str.truthy (getenv "DATABASE_URL")
             then "✅ Set" else "❌ Not Set"))
      (database_name response) (connection_status response)
      (collections response) in
  mkTestResponse (backend response) (database response)
    (database_url response)
    (Some (if Str.truthy (getenv "DATABASE_NAME")
           then "✅ Set" else "❌ Not Set"))
    (connection_status response) (collections response).

(** * Properties *)

(** ** The store *)

Lemma coll_set_coll_eq c l w : coll (set_coll c l w) c = l.
Proof. unfold coll, set_coll; simpl. by rewrite lookup_insert_eq. Qed.

Lemma coll_set_coll_ne c c' l w : c <> c' -> coll (set_coll c l w) c' = coll w c'.
Proof. intros Hne. unfold coll, set_coll; simpl. by rewrite lookup_insert_ne. Qed.

Lemma value_eqb_str v s : value_eqb v (VStr s) = true <-> v = VStr s.
Proof.
  destruct v; simpl; try (split; [discriminate | congruence]).
  rewrite String.eqb_eq. split; congruence.
Qed.

Lemma value_eqb_bool v b : value_eqb v (VBool b) = true <-> v = VBool b.
Proof.
  destruct v; simpl; try (split; [discriminate | congruence]).
  rewrite Bool.eqb_true_iff. split; congruence.
Qed.

Lemma holds_field_str d k s :
  holds d (FieldIs k (VStr s)) = true <-> doc_fields d !! k = Some (VStr s).
Proof.
  simpl. destruct (doc_fields d !! k) as [v|].
  - rewrite value_eqb_str. split; congruence.
  - split; discriminate.
Qed.

Lemma holds_field_bool d k b :
  holds d (FieldIs k (VBool b)) = true <-> doc_fields d !! k = Some (VBool b).
Proof.
  simpl. destruct (doc_fields d !! k) as [v|].
  - rewrite value_eqb_bool. split; congruence.
  - split; discriminate.
Qed.

Lemma conflicting_empty (s : Dict) : conflicting s ∅ = false.
Proof.
  unfold conflicting. apply bool_decide_eq_false. intros H. apply H.
  rewrite dom_empty_L. apply intersection_empty_r_L.
Qed.

Lemma conflicting_singleton (s : Dict) k v :
  conflicting s {[k := v]} = bool_decide (is_Some (s !! k)).
Proof.
  unfold conflicting. apply bool_decide_ext.
  rewrite dom_singleton_L, <- elem_of_dom. split.
  - intros H. destruct (decide (k ∈ dom s)) as [|Hn]; [done|].
    exfalso. apply H. apply elem_of_equiv_empty_L. intros x Hx.
    apply elem_of_intersection in Hx as [Hx1 Hx2].
    apply elem_of_singleton in Hx2. by subst.
  - intros Hk Heq. assert (k ∈ dom s ∩ ({[k]} : gset string)) as Hin.
    { apply elem_of_intersection. split; [done|]. by apply elem_of_singleton. }
    rewrite Heq in Hin. by apply not_elem_of_empty in Hin.
Qed.

(** ** Strings *)

Lemma lower_char_idem c : Str.lower_char (Str.lower_char c) = Str.lower_char c.
Proof. destruct c as [[] [] [] [] [] [] [] []]; reflexivity. Qed.

Lemma lower_idem s : Str.lower (Str.lower s) = Str.lower s.
Proof. induction s as [|c s IH]; simpl; [done|]. by rewrite lower_char_idem, IH. Qed.

(** ** Running the handlers *)

Lemma bind_ret {A B} (a : A) (k : A -> M B) w : bind (ret a) k w = k a w.
Proof. reflexivity. Qed.

Lemma bind_now {B} E (k : value -> M B) w :
  bind (now E) k w = k (VTime (clock E (clock_reads w))) (tick w).
Proof. reflexivity. Qed.

Lemma coll_tick w c : coll (tick w) c = coll w c.
Proof. reflexivity. Qed.

Lemma update_one_run E c flt s soi up w :
  conflicting s soi = false ->
  update_one E c flt s soi up w =
    if existsb (matches flt) (coll w c) then
      (Return 1%nat,
       set_coll c (update_first (matches flt) (apply_set s) (coll w c)) w)
    else if up then
      let o := default (oid_supply E (oids_issued w)) (filter_id flt) in
      let w1 := match filter_id flt with
                | Some _ => w
                | None => mkWorld (db w) (clock_reads w) (entropy_used w)
                            (S (oids_issued w))
                end in
      (Return 0%nat,
       set_coll c (coll w c ++ [mkDoc o (s ∪ soi ∪ filter_fields flt)]) w1)
    else (Return 0%nat, w).
Proof.
  intros Hc. unfold update_one. rewrite Hc.
  destruct (existsb _ _); [done|]. destruct up; [|done].
  destruct (filter_id flt); reflexivity.
Qed.

(** C8.  A login whose address, compared as [login] compares it (in lower
    case), is not the master administrator's is refused with status 403, and
    the world it leaves is the world it found: no user is upserted and no
    session is inserted. *)
Theorem login_rejects_other_addresses E e w :
  Str.lower e <> MASTER_ADMIN_EMAIL ->
  login E e w = (Raise (HTTPException 403 "Anda tidak memiliki akses admin"), w)
  /\ db (snd (login E e w)) = db w.
Proof.
  intros Hne. unfold login.
  destruct (String.eqb_spec (Str.lower e) MASTER_ADMIN_EMAIL) as [Heq|_]; [done|].
  by split.
Qed.

Lemma login_conflict_free (a b c d e : value) :
  conflicting
    (list_to_map [("email", a); ("name", b); ("role", c); ("updated_at", d)])
    {["created_at" := e]} = false.
Proof.
  rewrite conflicting_singleton. apply bool_decide_eq_false.
  intros [x Hx]. simpl in Hx.
  repeat (rewrite lookup_insert_ne in Hx by done).
  by rewrite lookup_empty in Hx.
Qed.

Lemma bind_run {A B} (m : M A) (k : A -> M B) w a w' :
  m w = (Return a, w') -> bind m k w = k a w'.
Proof. intros H. unfold bind. by rewrite H. Qed.

Lemma elem_of_update_first p f (l : list Doc) d :
  d ∈ update_first p f l -> d ∈ l \/ exists d0, d0 ∈ l /\ p d0 = true /\ d = f d0.
Proof.
  induction l as [|x l IH]; simpl; [by left|].
  destruct (p x) eqn:Hp.
  - intros [->|Hin]%elem_of_cons.
    + right. exists x. split; [left|done].
    + left. by right.
  - intros [->|Hin]%elem_of_cons.
    + left. left.
    + destruct (IH Hin) as [?|(d0 & ? & ? & ?)].
      * left. by right.
      * right. exists d0. split; [by right|done].
Qed.

Lemma update_first_hit p f (l : list Doc) :
  existsb p l = true -> exists d0, p d0 = true /\ f d0 ∈ update_first p f l.
Proof.
  induction l as [|x l IH]; simpl; [discriminate|].
  destruct (p x) eqn:Hp; simpl.
  - intros _. exists x. split; [done|left].
  - intros (d0 & ? & ?)%IH. exists d0. split; [done|by right].
Qed.

Lemma coll_set_coll c c' l w :
  coll (set_coll c l w) c' = if decide (c = c') then l else coll w c'.
Proof.
  case_decide; [subst; apply coll_set_coll_eq | by apply coll_set_coll_ne].
Qed.

(** What a login writes once its comparison has passed. *)
Lemma login_master_writes E e w :
  Str.lower e = MASTER_ADMIN_EMAIL ->
  exists w' s,
    login E e w =
      (Return (mkAuthResponse
                 (Str.hex (map (entropy E) (seq (entropy_used w) 24)))
                 MASTER_ADMIN_EMAIL), w')
    /\ coll w' "session" = coll w "session" ++ [s]
    /\ doc_fields s !! "email" = Some (VStr (Str.lower e))
    /\ (exists u, u ∈ coll w' "user"
                  /\ doc_fields u !! "email" = Some (VStr (Str.lower e)))
    /\ (forall c d, d ∈ coll w' c ->
          d ∈ coll w c \/ doc_fields d !! "email" = Some (VStr (Str.lower e)))
    /\ Str.lower (Str.lower e) = Str.lower e.
Proof.
  intros Hm. unfold login. rewrite Hm, String.eqb_refl. cbv [negb].
  rewrite !bind_now.
  set (upd := VTime _). set (crt := VTime _).
  set (patch := list_to_map _ : Dict).
  set (flt := [FieldIs "email" _]).
  pose proof (update_one_run E "user" flt patch {["created_at" := crt]} true
                (tick (tick w)) (login_conflict_free _ _ _ _ _)) as Hu.
  cbv zeta in Hu. simpl filter_id in Hu.
  set (w1 := snd (update_one E "user" flt patch {["created_at" := crt]} true
                    (tick (tick w)))).
  assert (exists n, update_one E "user" flt patch {["created_at" := crt]} true
                 (tick (tick w)) = (Return n, w1)) as [n Hrun].
  { unfold w1. rewrite Hu. repeat case_match; eauto. }
  rewrite (bind_run _ _ _ _ _ Hrun).
  assert (Hpatch : patch !! "email" = Some (VStr MASTER_ADMIN_EMAIL)).
  { unfold patch. simpl. by rewrite lookup_insert_eq. }
  assert (Huser : forall d, d ∈ coll w1 "user" ->
            d ∈ coll w "user" \/
            doc_fields d !! "email" = Some (VStr MASTER_ADMIN_EMAIL)).
  { intros d. unfold w1. rewrite Hu. rewrite !coll_tick.
    destruct (existsb _ _); simpl snd.
    - rewrite coll_set_coll_eq. intros Hd.
      apply elem_of_update_first in Hd as [?|(d0 & _ & _ & ->)]; [by left|].
      right. simpl. by rewrite lookup_union_l'.
    - rewrite coll_set_coll_eq. intros [?| ->%list_elem_of_singleton]%elem_of_app;
        [by left|].
      right. simpl. rewrite <- (assoc_L (∪)). by rewrite lookup_union_l'. }
  assert (Hother : forall c, c <> "user" -> coll w1 c = coll w c).
  { intros c Hc. unfold w1. rewrite Hu.
    destruct (existsb _ _); simpl snd; by rewrite coll_set_coll_ne. }
  assert (Hex : exists u, u ∈ coll w1 "user" /\
            doc_fields u !! "email" = Some (VStr MASTER_ADMIN_EMAIL)).
  { unfold w1. rewrite Hu. rewrite !coll_tick.
    destruct (existsb _ _) eqn:Hex; simpl snd; rewrite coll_set_coll_eq.
    - apply (update_first_hit _ (apply_set patch)) in Hex as (d0 & _ & Hin).
      exists (apply_set patch d0). split; [done|].
      simpl. by rewrite lookup_union_l'.
    - eexists. split; [apply elem_of_app; right; by apply list_elem_of_singleton|].
      simpl. rewrite <- (assoc_L (∪)). by rewrite lookup_union_l'. }
  assert (Hent : entropy_used w1 = entropy_used w).
  { unfold w1. rewrite Hu. by destruct (existsb _ _). }
  clearbody w1. clear Hu Hrun.
  unfold bind at 1. unfold urandom at 1. cbv iota beta. rewrite Hent.
  rewrite !bind_now.
  set (w2 := tick _). set (doc := list_to_map _ : Dict).
  unfold insert_one, fresh_oid, bind, ret. cbv iota beta.
  eexists _, _. split; [reflexivity|].
  assert (Hdoc : doc !! "email" = Some (VStr MASTER_ADMIN_EMAIL)).
  { unfold doc. simpl. by rewrite lookup_insert_eq. }
  rewrite coll_set_coll_eq. split; [|split; [|split; [|split]]].
  - unfold coll at 1 2. simpl db. fold (coll w1 "session"). by rewrite Hother.
  - done.
  - destruct Hex as (u & Hu & He). exists u. split; [|done].
    rewrite coll_set_coll_ne by done. exact Hu.
  - intros c d. rewrite coll_set_coll. case_decide as Hc.
    + subst c. unfold coll at 1. simpl db. fold (coll w1 "session").
      rewrite Hother by done.
      intros [?| ->%list_elem_of_singleton]%elem_of_app; [by left|by right].
    + unfold coll at 1. simpl db. fold (coll w1 c).
      destruct (decide (c = "user")) as [->|Hcu]; [apply Huser|].
      rewrite Hother by done. by left.
  - reflexivity.
Qed.

Lemma lower_of_spelling a b :
  is_capital a = false ->
  (Ascii.eqb b a || Ascii.eqb b (upper_char a) = true
   <-> Str.lower_char b = a).
Proof.
  intros Ha. rewrite orb_true_iff, !Ascii.eqb_eq. split.
  - intros [->| ->]; revert Ha;
      destruct a as [[] [] [] [] [] [] [] []]; vm_compute; congruence.
  - intros <-. clear Ha.
    destruct b as [[] [] [] [] [] [] [] []]; vm_compute; auto.
Qed.

Lemma capitalization_iff_lower m : forall e,
  has_capital m = false ->
  (is_capitalization m e = true <-> Str.lower e = m).
Proof.
  unfold has_capital.
  induction m as [|a m IH]; intros [|b e] Hm;
    cbn [is_capitalization Str.lower]; try (split; discriminate); [done|].
  cbn [list_ascii_of_string existsb] in Hm.
  apply orb_false_iff in Hm as [Ha Hm].
  rewrite andb_true_iff, (lower_of_spelling a b Ha), (IH e Hm).
  split; [by intros [-> ->]|]. by intros [= -> ->].
Qed.

(** C10.  [login] lowers the case of the address before it compares it and
    before it writes.  Its comparison passes exactly for the capitalizations
    of the master address, so a login succeeds for every one of them and for
    no other address; the session it inserts and the user it upserts carry
    the master address, which has no capital letter, and so does every
    document that the call adds or changes. *)
Theorem login_lowercases_email E e w :
  (is_capitalization MASTER_ADMIN_EMAIL e = true
   <-> Str.lower e = MASTER_ADMIN_EMAIL)
  /\ has_capital MASTER_ADMIN_EMAIL = false
  /\ (is_capitalization MASTER_ADMIN_EMAIL e = true
      <-> exists r w', login E e w = (Return r, w'))
  /\ (is_capitalization MASTER_ADMIN_EMAIL e = true ->
      exists w' s,
        login E e w =
          (Return (mkAuthResponse
                     (Str.hex (map (entropy E) (seq (entropy_used w) 24)))
                     MASTER_ADMIN_EMAIL), w')
        /\ coll w' "session" = coll w "session" ++ [s]
        /\ doc_fields s !! "email" = Some (VStr MASTER_ADMIN_EMAIL)
        /\ (exists u, u ∈ coll w' "user"
                      /\ doc_fields u !! "email"
                         = Some (VStr MASTER_ADMIN_EMAIL)))
  /\ (forall c d, d ∈ coll (snd (login E e w)) c ->
        d ∈ coll w c
        \/ doc_fields d !! "email" = Some (VStr MASTER_ADMIN_EMAIL)).
Proof.
  assert (Hspell : is_capitalization MASTER_ADMIN_EMAIL e = true
                   <-> Str.lower e = MASTER_ADMIN_EMAIL)
    by (apply capitalization_iff_lower; reflexivity).
  split; [exact Hspell|]. split; [reflexivity|].
  split; [|split].
  - rewrite Hspell. split.
    + intros Hm.
      destruct (login_master_writes E e w Hm) as (w' & s & Hrun & _).
      eauto.
    + intros (r & w' & Hrun). unfold login in Hrun.
      by destruct (String.eqb_spec (Str.lower e) MASTER_ADMIN_EMAIL).
  - intros Hm%Hspell.
    destruct (login_master_writes E e w Hm)
      as (w' & s & Hrun & Hsess & Hmail & Huser & _).
    rewrite Hm in Hmail, Huser. by exists w', s.
  - intros c d.
    destruct (String.eqb_spec (Str.lower e) MASTER_ADMIN_EMAIL) as [Hm|Hne].
    + destruct (login_master_writes E e w Hm)
        as (w' & s & Hrun & _ & _ & _ & Hall & _).
      rewrite Hrun. cbn [snd]. rewrite <- Hm. apply Hall.
    + unfold login.
      destruct (String.eqb_spec (Str.lower e) MASTER_ADMIN_EMAIL); [done|].
      by left.
Qed.

(** ** Invariants through the handler monad *)

Lemma preserves_ret {A} I (a : A) : preserves I (ret a).
Proof. by intros w. Qed.

Lemma preserves_raise {A} I e : preserves I (@raise A e).
Proof. by intros w. Qed.

Lemma preserves_bind {A B} I (m : M A) (k : A -> M B) :
  preserves I m -> (forall a, preserves I (k a)) -> preserves I (bind m k).
Proof.
  intros Hm Hk w Hw. unfold bind. specialize (Hm w Hw).
  destruct (m w) as [[a|e] w']; simpl in *; [by apply Hk|done].
Qed.

Lemma preserves_now E c P : preserves (on_coll c P) (now E).
Proof. by intros w. Qed.

Lemma preserves_urandom E c P n : preserves (on_coll c P) (urandom E n).
Proof. by intros w. Qed.

Lemma preserves_find_one c P c' flt : preserves (on_coll c P) (find_one c' flt).
Proof. by intros w. Qed.

Lemma preserves_find_sorted c P c' k n :
  preserves (on_coll c P) (find_sorted c' k n).
Proof. by intros w. Qed.

Lemma preserves_obj_id c P s : preserves (on_coll c P) (obj_id s).
Proof. intros w. unfold obj_id. by destruct (ObjectId_of_str s). Qed.

Lemma preserves_insert_one E c P c' fields :
  (c' = c -> forall l o, P l -> P (l ++ [mkDoc o fields])) ->
  preserves (on_coll c P) (insert_one E c' fields).
Proof.
  intros HP w Hw. unfold on_coll, insert_one, bind, fresh_oid in *. simpl.
  rewrite coll_set_coll. case_decide as Hc; [|exact Hw].
  apply HP; [done|]. subst c'. exact Hw.
Qed.

Lemma preserves_update_one E c P c' flt s soi up :
  (c' = c -> forall l, P l -> P (update_first (matches flt) (apply_set s) l)) ->
  (c' = c -> up = true ->
   forall l o, existsb (matches flt) l = false -> P l ->
               P (l ++ [mkDoc o (s ∪ soi ∪ filter_fields flt)])) ->
  preserves (on_coll c P) (update_one E c' flt s soi up).
Proof.
  intros Hupd Hins w Hw. unfold update_one.
  destruct (conflicting s soi); [exact Hw|].
  destruct (existsb _ _) eqn:Hex; simpl.
  - unfold on_coll. rewrite coll_set_coll.
    case_decide; [subst c'; by apply Hupd|exact Hw].
  - destruct up; [|exact Hw]. unfold on_coll.
    destruct (filter_id flt); simpl; rewrite coll_set_coll;
      (case_decide; [apply Hins; [done..|subst c'; exact Hw]|exact Hw]).
Qed.

Lemma preserves_delete_one c P c' flt :
  (c' = c -> forall l, P l -> P (remove_first (matches flt) l)) ->
  preserves (on_coll c P) (delete_one c' flt).
Proof.
  intros Hdel w Hw. unfold delete_one.
  destruct (existsb _ _); simpl; [|exact Hw].
  unfold on_coll. rewrite coll_set_coll.
  case_decide; [subst c'; by apply Hdel|exact Hw].
Qed.

Lemma Forall_update_first (P : Doc -> Prop) p f l :
  (forall d, P d -> P (f d)) -> Forall P l -> Forall P (update_first p f l).
Proof.
  intros Hf. induction 1 as [|x l Hx Hl IH]; simpl; [constructor|].
  destruct (p x); constructor; auto.
Qed.

Lemma Forall_remove_first (P : Doc -> Prop) p l :
  Forall P l -> Forall P (remove_first p l).
Proof.
  induction 1 as [|x l Hx Hl IH]; simpl; [constructor|].
  destruct (p x); [done|by constructor].
Qed.

Lemma apply_set_keeps_field s d k :
  is_Some (doc_fields d !! k) -> is_Some (doc_fields (apply_set s d) !! k).
Proof.
  intros [v Hv]. simpl. destruct (s !! k) as [v'|] eqn:Hs.
  - exists v'. by apply lookup_union_Some_l.
  - exists v. rewrite lookup_union_r; done.
Qed.

Lemma preserves_ensure_admin c P t : preserves (on_coll c P) (ensure_admin t).
Proof.
  unfold ensure_admin. destruct (negb _); [apply preserves_raise|].
  apply preserves_bind; [apply preserves_find_one|].
  intros [s|]; [|apply preserves_raise].
  destruct (_ !! _); [apply preserves_ret|apply preserves_raise].
Qed.

Lemma preserves_depends_admin {A} I t (h : value -> M A) :
  preserves I (ensure_admin t) -> (forall e, preserves I (h e)) ->
  preserves I (depends_admin t h).
Proof. intros. by apply preserves_bind. Qed.

Lemma schema_map_session : schema_map !! "session" = None.
Proof. reflexivity. Qed.

Lemma sessions_have_email_on_coll w :
  sessions_have_email w <-> on_coll "session" (Forall has_email) w.
Proof. reflexivity. Qed.

Ltac preserves_step :=
  lazymatch goal with
  | |- preserves _ (ret _) => apply preserves_ret
  | |- preserves _ (raise _) => apply preserves_raise
  | |- preserves _ (now _) => apply preserves_now
  | |- preserves _ (urandom _ _) => apply preserves_urandom
  | |- preserves _ (find_one _ _) => apply preserves_find_one
  | |- preserves _ (find_sorted _ _ _) => apply preserves_find_sorted
  | |- preserves _ (obj_id _) => apply preserves_obj_id
  | |- preserves _ (ensure_admin _) => apply preserves_ensure_admin
  | |- preserves _ (bind _ _) => apply preserves_bind; [|intros ?]
  | |- preserves _ (depends_admin _ _) =>
      apply preserves_depends_admin; [|intros ?]
  end.

Lemma update_keeps_emails (flt : list cond) (s : Dict) l :
  Forall has_email l ->
  Forall has_email (update_first (matches flt) (apply_set s) l).
Proof.
  intros Hl. apply Forall_update_first; [|done].
  intros d. apply apply_set_keeps_field.
Qed.

Lemma login_sessions_ok E e : preserves sessions_ok (login E e).
Proof.
  unfold login. destruct (negb _); [apply preserves_raise|].
  repeat preserves_step.
  - apply preserves_update_one; [|discriminate].
    intros _ l. apply update_keeps_emails.
  - apply preserves_insert_one. intros _ l o Hl.
    apply Forall_app. split; [done|]. constructor; [|constructor].
    unfold has_email. simpl. rewrite lookup_insert_eq. eauto.
Qed.

Lemma logout_sessions_ok E t : preserves sessions_ok (logout E t).
Proof.
  unfold logout. destruct (negb _); [apply preserves_ret|].
  repeat preserves_step.
  apply preserves_update_one; [|discriminate].
  intros _ l. apply update_keeps_emails.
Qed.

Lemma create_item_sessions_ok E c d : preserves sessions_ok (create_item E c d).
Proof.
  unfold create_item.
  destruct (schema_map !! c) as [sch|] eqn:Hsch; [|preserves_step].
  destruct (model_validate E sch d); repeat preserves_step.
  apply preserves_insert_one. intros ->. by rewrite schema_map_session in Hsch.
Qed.

Lemma admin_update_sessions_ok E c i d e :
  preserves sessions_ok (admin_update E c i d e).
Proof.
  unfold admin_update. repeat preserves_step.
  - apply preserves_update_one; [|discriminate].
    intros _ l. apply update_keeps_emails.
  - destruct (Nat.eqb _ _); preserves_step.
Qed.

Lemma admin_delete_sessions_ok c i e :
  preserves sessions_ok (admin_delete c i e).
Proof.
  unfold admin_delete. repeat preserves_step.
  - apply preserves_delete_one. intros _ l. apply Forall_remove_first.
  - destruct (Nat.eqb _ _); preserves_step.
Qed.

Lemma set_page_sessions_ok E k d e : preserves sessions_ok (set_page E k d e).
Proof.
  unfold set_page. repeat preserves_step.
  apply preserves_update_one; [|discriminate].
  intros _ l. apply update_keeps_emails.
Qed.

Lemma serve_sessions_have_email E r w :
  sessions_have_email w -> sessions_have_email (serve E r w).
Proof.
  rewrite !sessions_have_email_on_coll.
  destruct r; cbn [serve].
  - apply login_sessions_ok.
  - apply logout_sessions_ok.
  - assert (preserves sessions_ok (public_list collection limit)) as H;
      [|apply H].
    unfold public_list. repeat preserves_step.
  - apply preserves_depends_admin; [preserves_step|intros ?].
    unfold admin_list. repeat preserves_step.
  - apply preserves_depends_admin; [preserves_step|intros ?].
    apply create_item_sessions_ok.
  - apply preserves_depends_admin; [preserves_step|intros ?].
    apply admin_update_sessions_ok.
  - apply preserves_depends_admin; [preserves_step|intros ?].
    apply admin_delete_sessions_ok.
  - assert (preserves sessions_ok (get_page key)) as H; [|apply H].
    unfold get_page. repeat preserves_step.
    match goal with a : option Doc |- _ => destruct a end; preserves_step.
  - apply preserves_depends_admin; [preserves_step|intros ?].
    apply set_page_sessions_ok.
Qed.

Lemma reachable_sessions_have_email E w :
  reachable E w -> sessions_have_email w.
Proof.
  induction 1 as [|r w _ IH]; [constructor|]. by apply serve_sessions_have_email.
Qed.

(** ** The guard *)

Lemma matches_active t s :
  matches [FieldIs "token" (VStr t); FieldIs "active" (VBool true)] s = true
  <-> active_for t s.
Proof.
  unfold matches, active_for. cbn [forallb].
  rewrite andb_true_r, andb_true_iff, holds_field_str, holds_field_bool. done.
Qed.

Lemma ensure_admin_run auth_token w :
  ensure_admin auth_token w =
    if negb (Str.truthy auth_token) then
      (Raise (HTTPException 401 "Missing auth token"), w)
    else
      match List.find
              (matches [ FieldIs "token" (VStr (default EmptyString auth_token));
                         FieldIs "active" (VBool true) ])
              (coll w "session") with
      | None => (Raise (HTTPException 401 "Invalid or expired token"), w)
      | Some s =>
          match doc_fields s !! "email" with
          | Some e => (Return e, w)
          | None => (Raise (KeyError "email"), w)
          end
      end.
Proof.
  unfold ensure_admin. destruct (negb _); [done|].
  unfold bind, find_one. destruct (List.find _ _); [|done].
  by destruct (_ !! _).
Qed.

Lemma truthy_Some o : Str.truthy o = true <-> exists t, o = Some t /\ t <> EmptyString.
Proof.
  destruct o as [[|c t]|]; simpl; split; try discriminate.
  - intros (t & [= <-] & Ht). done.
  - intros _. eexists. split; [done|discriminate].
  - done.
  - intros (t & [=] & _).
Qed.

(** C4.  In every reachable world the guard succeeds exactly when the
    request carries a non-empty token that an active session holds, and it
    then yields that session's email.  A missing token and a token without
    an active session are both refused with status 401, under different
    messages.  A route behind the guard runs its handler with the email the
    guard found, and no admin handler looks at that email. *)
Theorem ensure_admin_guard E w (auth_token : option string) :
  reachable E w ->
  ((exists e, ensure_admin auth_token w = (Return e, w)) <->
   (exists t s, auth_token = Some t /\ t <> EmptyString /\
                s ∈ coll w "session" /\ active_for t s))
  /\ (forall e, ensure_admin auth_token w = (Return e, w) ->
        exists t s, auth_token = Some t /\ s ∈ coll w "session" /\
                    active_for t s /\ doc_fields s !! "email" = Some e)
  /\ (Str.truthy auth_token = false ->
        ensure_admin auth_token w =
          (Raise (HTTPException 401 "Missing auth token"), w))
  /\ (Str.truthy auth_token = true ->
      (forall t s, auth_token = Some t -> s ∈ coll w "session" ->
                   ~ active_for t s) ->
        ensure_admin auth_token w =
          (Raise (HTTPException 401 "Invalid or expired token"), w))
  /\ (forall A (h : value -> M A) e,
        ensure_admin auth_token w = (Return e, w) ->
        depends_admin auth_token h w = h e w)
  /\ (forall c i d n k e e',
        admin_list c e n = admin_list c e' n
        /\ admin_create E c d e = admin_create E c d e'
        /\ admin_update E c i d e = admin_update E c i d e'
        /\ admin_delete c i e = admin_delete c i e'
        /\ set_page E k d e = set_page E k d e').
Proof.
  intros Hreach. apply reachable_sessions_have_email in Hreach as Hinv.
  assert (Hyield : forall e, ensure_admin auth_token w = (Return e, w) ->
            exists t s, auth_token = Some t /\ t <> EmptyString /\
              s ∈ coll w "session" /\
              active_for t s /\ doc_fields s !! "email" = Some e).
  { intros e. rewrite ensure_admin_run.
    destruct (Str.truthy auth_token) eqn:Ht; simpl; [|discriminate].
    apply truthy_Some in Ht as (t & -> & Hne). simpl.
    destruct (List.find _ _) as [s|] eqn:Hf; [|discriminate].
    apply find_some in Hf as [Hin Hm]. apply matches_active in Hm.
    destruct (doc_fields s !! "email") as [e'|] eqn:He; [|discriminate].
    intros [= ->]. exists t, s. by rewrite <- list_elem_of_In in Hin. }
  split; [split|split; [|split; [|split; [|split]]]].
  - intros [e He]. destruct (Hyield e He) as (t & s & ? & ? & ? & ? & _). by exists t, s.
  - intros (t & s & -> & Hne & Hin & Hact).
    rewrite ensure_admin_run.
    assert (Str.truthy (Some t) = true) as -> by (apply truthy_Some; eauto).
    simpl. destruct (List.find _ _) as [s'|] eqn:Hf.
    + apply find_some in Hf as [Hin' _].
      apply list_elem_of_In in Hin'.
      unfold sessions_have_email in Hinv. rewrite Forall_forall in Hinv.
      destruct (Hinv _ Hin') as [e ->]. eauto.
    + apply list_elem_of_In in Hin.
      eapply find_none in Hf; [|exact Hin].
      apply matches_active in Hact. congruence.
  - intros e He. destruct (Hyield e He) as (t & s & ? & ? & ? & ? & ?). by exists t, s.
  - intros Ht. rewrite ensure_admin_run. by rewrite Ht.
  - intros Ht Hnone. rewrite ensure_admin_run. rewrite Ht. simpl.
    apply truthy_Some in Ht as (t & -> & Hne). simpl.
    destruct (List.find _ _) as [s|] eqn:Hf; [|done].
    apply find_some in Hf as [Hin Hm]. apply matches_active in Hm.
    apply list_elem_of_In in Hin. by destruct (Hnone t s eq_refl Hin).
  - intros A h e He. unfold depends_admin, bind. by rewrite He.
  - intros. repeat split.
Qed.

(** ** Identifiers *)

Lemma string_pair_ind (P : string -> Prop) :
  P EmptyString -> (forall c, P (String c EmptyString)) ->
  (forall a b s, P s -> P (String a (String b s))) -> forall s, P s.
Proof.
  intros H0 H1 H2.
  fix IH 1. intros [|a [|b s]]; [exact H0|apply H1|apply H2, IH].
Qed.

Lemma hex_value_bound c a : Str.hex_value c = Some a -> (a < 16)%N.
Proof.
  destruct c as [[] [] [] [] [] [] [] []]; vm_compute; intros [= <-]; reflexivity.
Qed.

Lemma fromhex_Some_iff s :
  is_Some (Str.fromhex s) <->
  Nat.even (String.length s) = true /\
  forallb is_hex_digit (list_ascii_of_string s) = true.
Proof.
  induction s as [|c|a b s IH] using string_pair_ind.
  - simpl. split; [done|eauto].
  - simpl. split; [intros [? [=]]|intros [[=] _]].
  - cbn [Str.fromhex String.length Nat.even list_ascii_of_string forallb].
    unfold is_hex_digit at 1 2.
    destruct (Str.hex_value a) as [x|] eqn:Ha; [|split; [intros [? [=]]|intros [_ [=]]]].
    destruct (Str.hex_value b) as [y|] eqn:Hb; [|split; [intros [? [=]]|intros [_ [=]]]].
    cbn [andb]. rewrite <- IH.
    destruct (Str.fromhex s) as [bs|]; [|split; [intros [? [=]]|intros [? [=]]]].
    destruct (Byte.of_N (x * 16 + y)) as [z|] eqn:Hz; [split; eauto|].
    apply Byte.of_N_None_iff in Hz.
    apply hex_value_bound in Ha, Hb. lia.
Qed.

Lemma ObjectId_of_str_Some_iff s :
  is_Some (ObjectId_of_str s) <-> well_formed_id s = true.
Proof.
  unfold ObjectId_of_str, well_formed_id.
  destruct (Nat.eqb (String.length s) 24) eqn:Hlen; cbn [andb].
  - rewrite fromhex_Some_iff. apply Nat.eqb_eq in Hlen. rewrite Hlen.
    split; [by intros [_ ?]|by split].
  - split; [intros [? [=]]|discriminate].
Qed.

Lemma existsb_id_none o (l : list Doc) :
  Forall (fun x => doc_id x <> o) l -> existsb (matches [IdIs o]) l = false.
Proof.
  induction 1 as [|x l Hx _ IH]; [done|]. cbn [existsb]. rewrite IH.
  unfold matches. cbn [forallb holds]. by rewrite bool_decide_eq_false_2.
Qed.

Lemma admin_update_run E c i data e w o :
  ObjectId_of_str i = Some o ->
  admin_update E c i data e w =
    let patch := <["updated_at" := VTime (clock E (clock_reads w))]> data in
    if existsb (matches [IdIs o]) (coll w c) then
      (Return "updated",
       set_coll c (update_first (matches [IdIs o]) (apply_set patch) (coll w c))
         (tick w))
    else (Raise (HTTPException 404 "Not found"), tick w).
Proof.
  intros Ho. unfold admin_update. rewrite bind_now.
  unfold obj_id. rewrite Ho. rewrite bind_ret.
  unfold bind. rewrite update_one_run by apply conflicting_empty.
  rewrite coll_tick. by destruct (existsb _ _).
Qed.

Lemma admin_delete_run c i e w o :
  ObjectId_of_str i = Some o ->
  admin_delete c i e w =
    if existsb (matches [IdIs o]) (coll w c) then
      (Return "deleted",
       set_coll c (remove_first (matches [IdIs o]) (coll w c)) w)
    else (Raise (HTTPException 404 "Not found"), w).
Proof.
  intros Ho. unfold admin_delete, obj_id. rewrite Ho, bind_ret.
  unfold bind, delete_one. by destruct (existsb _ _).
Qed.

(** C6.  Decoding tells a malformed identifier from an absent document:
    ["not-an-id"], like every string that is not well formed, is refused
    with status 400; every well-formed string decodes, whatever the store
    holds; and an update or a delete with a decoded identifier that no
    document of the collection carries is refused with status 404. *)
Theorem identifier_decoding E w :
  obj_id "not-an-id" w = (Raise (HTTPException 400 "Invalid id"), w)
  /\ (forall s, well_formed_id s = false ->
        obj_id s w = (Raise (HTTPException 400 "Invalid id"), w))
  /\ (forall s, well_formed_id s = true -> exists o, obj_id s w = (Return o, w))
  /\ (forall c s o data auth_token e,
        obj_id s w = (Return o, w) ->
        Forall (fun x => doc_id x <> o) (coll w c) ->
        ensure_admin auth_token w = (Return e, w) ->
        depends_admin auth_token (admin_update E c s data) w =
          (Raise (HTTPException 404 "Not found"), tick w)
        /\ depends_admin auth_token (admin_delete c s) w =
             (Raise (HTTPException 404 "Not found"), w)).
Proof.
  split; [reflexivity|]. split; [|split].
  - intros s Hs. unfold obj_id.
    destruct (ObjectId_of_str s) as [o|] eqn:Ho; [|done].
    assert (is_Some (ObjectId_of_str s)) as Hsome by eauto.
    apply ObjectId_of_str_Some_iff in Hsome. congruence.
  - intros s Hs. apply ObjectId_of_str_Some_iff in Hs as [o Ho].
    exists o. unfold obj_id. by rewrite Ho.
  - intros c s o data tok e Hdec Hnone Hadm.
    assert (ObjectId_of_str s = Some o) as Ho.
    { unfold obj_id in Hdec. destruct (ObjectId_of_str s); [|done].
      by injection Hdec as ->. }
    unfold depends_admin. rewrite !(bind_run _ _ _ _ _ Hadm).
    rewrite (admin_update_run _ _ _ _ _ _ _ Ho), (admin_delete_run _ _ _ _ _ Ho).
    cbv zeta. by rewrite (existsb_id_none _ _ Hnone).
Qed.

(** ** Update *)

Lemma update_first_split p f (l1 l2 : list Doc) d :
  Forall (fun x => p x = false) l1 -> p d = true ->
  update_first p f (l1 ++ d :: l2) = l1 ++ f d :: l2.
Proof.
  intros Hl1 Hd. induction Hl1 as [|x l1 Hx _ IH]; simpl.
  - by rewrite Hd.
  - by rewrite Hx, IH.
Qed.

(** C5.  An update of an existing document writes the fields of the
    payload and [updated_at], and nothing else: a field the payload does not
    name keeps its value, the document keeps its identifier and its place,
    and every other document and collection is untouched. *)
Theorem update_partial_merge E c i (data : Dict) auth_token e w o l1 d l2 :
  ensure_admin auth_token w = (Return e, w) ->
  ObjectId_of_str i = Some o ->
  coll w c = l1 ++ d :: l2 ->
  doc_id d = o ->
  Forall (fun x => doc_id x <> o) l1 ->
  exists w' d',
    depends_admin auth_token (admin_update E c i data) w
      = (Return "updated", w')
    /\ coll w' c = l1 ++ d' :: l2
    /\ doc_id d' = doc_id d
    /\ (forall c', c' <> c -> coll w' c' = coll w c')
    /\ doc_fields d' !! "updated_at" = Some (VTime (clock E (clock_reads w)))
    /\ (forall k v, k <> "updated_at" -> data !! k = Some v ->
          doc_fields d' !! k = Some v)
    /\ (forall k, k <> "updated_at" -> data !! k = None ->
          doc_fields d' !! k = doc_fields d !! k).
Proof.
  intros Hadm Ho Hc Hd Hl1.
  unfold depends_admin. rewrite (bind_run _ _ _ _ _ Hadm).
  rewrite (admin_update_run _ _ _ _ _ _ _ Ho). cbv zeta.
  set (patch := <["updated_at" := _]> data).
  assert (Hmd : matches [IdIs o] d = true).
  { unfold matches. cbn [forallb holds]. by rewrite bool_decide_eq_true_2. }
  assert (Hex : existsb (matches [IdIs o]) (coll w c) = true).
  { rewrite Hc. apply existsb_exists. exists d. split; [|done].
    apply in_or_app. right. by left. }
  rewrite Hex. eexists _, (apply_set patch d).
  split; [reflexivity|]. rewrite coll_set_coll_eq.
  split; [|split; [done|split; [|split; [|split]]]].
  - rewrite Hc. apply update_first_split; [|done].
    eapply Forall_impl; [exact Hl1|]. intros x Hx.
    unfold matches. cbn [forallb holds]. by rewrite bool_decide_eq_false_2.
  - intros c' Hc'. by rewrite coll_set_coll_ne.
  - simpl. apply lookup_union_Some_l. unfold patch. by rewrite lookup_insert_eq.
  - intros k v Hk Hv. simpl. apply lookup_union_Some_l.
    unfold patch. by rewrite lookup_insert_ne.
  - intros k Hk Hv. simpl. apply lookup_union_r.
    unfold patch. by rewrite lookup_insert_ne.
Qed.

(** ** Keyed pages *)

Lemma matches_key k d : matches [FieldIs "key" (VStr k)] d = has_key k d.
Proof. unfold matches, has_key. cbn [forallb]. apply andb_true_r. Qed.

Lemma has_key_iff k d :
  has_key k d = true <-> doc_fields d !! "key" = Some (VStr k).
Proof. apply holds_field_str. Qed.


Lemma page_patch_key E key data w : page_patch E key data w !! "key" = Some (VStr key).
Proof. unfold page_patch. rewrite lookup_insert_ne by done. apply lookup_insert_eq. Qed.

Lemma page_patch_updated E key data w :
  page_patch E key data w !! "updated_at" = Some (VTime (clock E (clock_reads w))).
Proof. apply lookup_insert_eq. Qed.

Lemma page_patch_created E key data w :
  page_patch E key data w !! "created_at" = data !! "created_at".
Proof. unfold page_patch. by rewrite !lookup_insert_ne. Qed.

Lemma existsb_pred_ext (p q : Doc -> bool) l :
  (forall d, p d = q d) -> existsb p l = existsb q l.
Proof. intros H. induction l as [|x l IH]; simpl; [done|]. by rewrite H, IH. Qed.

Lemma update_first_ext (p q : Doc -> bool) f l :
  (forall d, p d = q d) -> update_first p f l = update_first q f l.
Proof. intros H. induction l as [|x l IH]; simpl; [done|]. by rewrite H, IH. Qed.

Lemma set_page_run E key data e w :
  set_page E key data e w =
    let patch := page_patch E key data w in
    let flt := [FieldIs "key" (VStr key)] in
    let crt := VTime (clock E (S (clock_reads w))) in
    let w2 := tick (tick w) in
    if bool_decide (is_Some (data !! "created_at")) then
      (Raise (WriteError "Updating the path would create a conflict"), w2)
    else if existsb (has_key key) (coll w "schoolpage") then
      (Return "saved",
       set_coll "schoolpage"
         (update_first (has_key key) (apply_set patch) (coll w "schoolpage")) w2)
    else
      (Return "saved",
       set_coll "schoolpage"
         (coll w "schoolpage" ++
          [mkDoc (oid_supply E (oids_issued w))
             (patch ∪ {["created_at" := crt]} ∪ filter_fields flt)])
         (mkWorld (db w2) (clock_reads w2) (entropy_used w2)
            (S (oids_issued w2)))).
Proof.
  unfold set_page. rewrite !bind_now. fold (page_patch E key data w).
  cbv zeta. unfold bind, update_one.
  rewrite conflicting_singleton.
  rewrite (bool_decide_ext _ (is_Some (data !! "created_at")))
    by by rewrite page_patch_created.
  destruct (bool_decide _); [done|].
  rewrite !coll_tick.
  rewrite (existsb_pred_ext _ (has_key key)) by apply matches_key.
  rewrite (update_first_ext _ (has_key key)) by apply matches_key.
  destruct (existsb _ _); reflexivity.
Qed.

Lemma find_split (p : Doc -> bool) l d :
  List.find p l = Some d ->
  exists l1 l2, l = l1 ++ d :: l2 /\ Forall (fun x => p x = false) l1 /\ p d = true.
Proof.
  induction l as [|x l IH]; simpl; [discriminate|].
  destruct (p x) eqn:Hx.
  - intros [= ->]. by exists [], l.
  - intros (l1 & l2 & -> & Hl1 & Hd)%IH.
    exists (x :: l1), l2. split; [done|]. split; [by constructor|done].
Qed.

Lemma find_none_existsb (p : Doc -> bool) l :
  List.find p l = None <-> existsb p l = false.
Proof.
  induction l as [|x l IH]; simpl; [done|].
  destruct (p x); simpl; [split; discriminate|done].
Qed.

Lemma existsb_filter_nil (p : Doc -> bool) l :
  existsb p l = false -> List.filter p l = [].
Proof.
  induction l as [|x l IH]; simpl; [done|].
  destruct (p x); simpl; [discriminate|done].
Qed.

Lemma filter_update_first_length (q p : Doc -> bool) f l :
  (forall d, p d = true -> q (f d) = q d) ->
  length (List.filter q (update_first p f l)) = length (List.filter q l).
Proof.
  intros Hq. induction l as [|x l IH]; simpl; [done|].
  destruct (p x) eqn:Hp; simpl.
  - rewrite (Hq x Hp). by destruct (q x).
  - destruct (q x); simpl; by rewrite IH.
Qed.





(** ** Logout *)

Lemma logout_run E auth_token w :
  logout E auth_token w =
    if negb (Str.truthy auth_token) then (Return "ok", w)
    else
      (Return "logged out",
       if existsb (matches (token_filter auth_token)) (coll w "session") then
         set_coll "session"
           (update_first (matches (token_filter auth_token))
              (apply_set (logout_patch E w)) (coll w "session")) (tick w)
       else tick w).
Proof.
  unfold logout. destruct (negb _); [done|].
  rewrite bind_now. unfold bind.
  rewrite update_one_run by apply conflicting_empty.
  rewrite coll_tick. fold (logout_patch E w). fold (token_filter auth_token).
  by destruct (existsb _ _).
Qed.

Lemma logout_patch_lookup E w k :
  logout_patch E w !! k =
    if decide (k = "active") then Some (VBool false)
    else if decide (k = "updated_at")
         then Some (VTime (clock E (clock_reads w))) else None.
Proof.
  unfold logout_patch. cbn [list_to_map foldr uncurry fst snd].
  repeat case_decide; subst; simplify_map_eq; done.
Qed.

Lemma logout_patch_absorbs E w w' (m : Dict) :
  logout_patch E w' ∪ (logout_patch E w ∪ m) = logout_patch E w' ∪ m.
Proof.
  apply map_eq. intros k. rewrite !lookup_union, !logout_patch_lookup.
  repeat case_decide; by destruct (m !! k).
Qed.

Lemma logout_patch_keeps_token E w auth_token d :
  matches (token_filter auth_token) (apply_set (logout_patch E w) d)
  = matches (token_filter auth_token) d.
Proof.
  unfold matches, token_filter. cbn [forallb holds apply_set doc_fields].
  rewrite lookup_union_r; [done|].
  rewrite logout_patch_lookup. by repeat case_decide.
Qed.

Lemma update_first_twice (p : Doc -> bool) f g l :
  (forall d, p (f d) = p d) -> (forall d, g (f d) = g d) ->
  update_first p g (update_first p f l) = update_first p g l.
Proof.
  intros Hp Hg. induction l as [|x l IH]; simpl; [done|].
  destruct (p x) eqn:Hx; simpl.
  - by rewrite Hp, Hx, Hg.
  - by rewrite Hx, IH.
Qed.

Lemma existsb_update_first (p : Doc -> bool) f l :
  (forall d, p (f d) = p d) -> existsb p (update_first p f l) = existsb p l.
Proof.
  intros Hp. induction l as [|x l IH]; simpl; [done|].
  destruct (p x) eqn:Hx; simpl.
  - by rewrite Hp, Hx.
  - by rewrite Hx, IH.
Qed.

Lemma logout_twice E auth_token w :
  db (snd (logout E auth_token (snd (logout E auth_token w))))
  = db (snd (logout E auth_token (tick w))).
Proof.
  rewrite !logout_run. destruct (negb _); [done|]. cbn [snd].
  rewrite coll_tick.
  destruct (existsb _ (coll w "session")) eqn:Hex.
  - rewrite coll_set_coll_eq.
    rewrite existsb_update_first by apply logout_patch_keeps_token.
    rewrite Hex. unfold set_coll, tick. cbn [db].
    rewrite insert_insert_eq. f_equal.
    apply update_first_twice; [apply logout_patch_keeps_token|].
    intros d. unfold apply_set. cbn [doc_id doc_fields]. f_equal.
    apply logout_patch_absorbs.
  - rewrite coll_tick, Hex. done.
Qed.

(** C9, amended.  Logout never raises, for any token.  Without a token it
    answers ["ok"] and changes nothing.  With a token it sets [active] to
    false and [updated_at] to the time of the call on the first session with
    that token, and changes nothing else (nothing at all when no session has
    the token).  A second logout with the same token only stamps
    [updated_at] again: two calls leave the store that one call at the time
    of the second would leave, which is the store of the first call whenever
    the clock shows the same time at both. *)
Theorem logout_total E auth_token w :
  (exists msg, fst (logout E auth_token w) = Return msg)
  /\ (Str.truthy auth_token = false -> logout E auth_token w = (Return "ok", w))
  /\ (Str.truthy auth_token = true ->
      let w' := snd (logout E auth_token w) in
      let upd := VTime (clock E (clock_reads w)) in
      fst (logout E auth_token w) = Return "logged out"
      /\ (forall c, c <> "session" -> coll w' c = coll w c)
      /\ match List.find (matches (token_filter auth_token))
                 (coll w "session") with
         | None => db w' = db w
         | Some s =>
             exists l1 l2 fields,
               coll w "session" = l1 ++ s :: l2
               /\ coll w' "session" = l1 ++ mkDoc (doc_id s) fields :: l2
               /\ fields !! "active" = Some (VBool false)
               /\ fields !! "updated_at" = Some upd
               /\ (forall k, k <> "active" -> k <> "updated_at" ->
                     fields !! k = doc_fields s !! k)
         end)
  /\ db (snd (logout E auth_token (snd (logout E auth_token w))))
     = db (snd (logout E auth_token (tick w)))
  /\ (clock E (S (clock_reads w)) = clock E (clock_reads w) ->
      db (snd (logout E auth_token (snd (logout E auth_token w))))
      = db (snd (logout E auth_token w))).
Proof.
  split; [|split; [|split; [|split]]].
  - rewrite logout_run. destruct (negb _); eauto.
  - intros Ht. rewrite logout_run. by rewrite Ht.
  - intros Ht. rewrite logout_run, Ht. cbn [negb fst snd].
    split; [done|]. split.
    + intros c Hc. destruct (existsb _ _); [by rewrite coll_set_coll_ne|done].
    + destruct (List.find _ _) as [s|] eqn:Hf.
      * assert (existsb (matches (token_filter auth_token))
                  (coll w "session") = true) as ->.
        { destruct (existsb _ _) eqn:Hex; [done|].
          apply find_none_existsb in Hex. congruence. }
        apply find_split in Hf as (l1 & l2 & Hl & Hl1 & Hs).
        exists l1, l2, (logout_patch E w ∪ doc_fields s).
        split; [done|]. rewrite coll_set_coll_eq.
        split; [rewrite Hl; by apply update_first_split|].
        split; [|split].
        -- apply lookup_union_Some_l. by rewrite logout_patch_lookup.
        -- apply lookup_union_Some_l. by rewrite logout_patch_lookup.
        -- intros k Hk1 Hk2. apply lookup_union_r.
           rewrite logout_patch_lookup. by repeat case_decide.
      * apply find_none_existsb in Hf. by rewrite Hf.
  - apply logout_twice.
  - intros Hclk. rewrite logout_twice. rewrite !logout_run.
    destruct (negb _); [done|]. cbn [snd]. rewrite coll_tick.
    assert (logout_patch E (tick w) = logout_patch E w) as ->.
    { unfold logout_patch. cbn [tick clock_reads]. by rewrite Hclk. }
    by destruct (existsb _ _).
Qed.

(** ** Validation and create *)

Lemma declared_only_lookup sch data k :
  k ∈ declared sch -> declared_only sch data !! k = data !! k.
Proof.
  intros Hk. unfold declared_only. apply option_eq. intros v.
  rewrite map_lookup_filter_Some. naive_solver.
Qed.

Lemma validate_field_ext E f (data data' : Dict) :
  data !! fname f = data' !! fname f ->
  validate_field E f data = validate_field E f data'.
Proof. intros H. unfold validate_field. by rewrite H. Qed.

Lemma validate_fields_ext E sch (data data' : Dict) :
  (forall k, k ∈ declared sch -> data !! k = data' !! k) ->
  validate_fields E sch data = validate_fields E sch data'.
Proof.
  induction sch as [|f sch IH]; intros H; cbn [validate_fields]; [done|].
  rewrite IH by (intros k Hk; apply H; by right).
  rewrite (validate_field_ext E f data data') by (apply H; left).
  done.
Qed.

Lemma validate_fields_errors E sch data errs out :
  validate_fields E sch data = (errs, out) ->
  forall k m, (k, m) ∈ errs -> k ∈ declared sch.
Proof.
  revert errs out. induction sch as [|f sch IH]; intros errs out;
    cbn [validate_fields].
  - intros [= <- <-] k m Hin. by apply elem_of_nil in Hin.
  - destruct (validate_fields E sch data) as [errs' out'] eqn:Hrec.
    unfold validate_field.
    destruct (data !! fname f) as [v|];
      [destruct (coerce E (fty f) v)|destruct (fdefault f)];
      intros [= <- <-] k m Hin;
      try (right; by eapply IH);
      apply elem_of_cons in Hin as [[= -> ->]|Hin];
      solve [left | right; by eapply IH].
Qed.

Lemma validate_fields_dom E sch data out :
  validate_fields E sch data = ([], out) ->
  dom out = list_to_set (declared sch).
Proof.
  revert out. induction sch as [|f sch IH]; intros out; cbn [validate_fields].
  - intros [= <-]. by rewrite dom_empty_L.
  - destruct (validate_fields E sch data) as [errs' out'] eqn:Hrec.
    destruct (validate_field E f data); [discriminate|].
    intros [= -> <-]. rewrite dom_insert_L. cbn [declared map list_to_set].
    f_equal. by apply IH.
Qed.

Lemma create_item_run E c sch data w :
  schema_map !! c = Some sch ->
  create_item E c data w =
    match model_validate E sch data with
    | inl errs => (Raise (ValidationError errs), w)
    | inr doc =>
        let crt := VTime (clock E (clock_reads w)) in
        let upd := VTime (clock E (S (clock_reads w))) in
        let o := oid_supply E (oids_issued w) in
        (Return (str_of_ObjectId o),
         set_coll c
           (coll w c ++
            [mkDoc o (<["updated_at" := upd]> (<["created_at" := crt]> doc))])
           (mkWorld (db w) (S (S (clock_reads w))) (entropy_used w)
              (S (oids_issued w))))
    end.
Proof.
  intros Hsch. unfold create_item. rewrite Hsch.
  destruct (model_validate E sch data); reflexivity.
Qed.

(** C3, amended.  For a known collection, the keys of a payload that the
    schema does not declare are ignored: create behaves on the payload as it
    does on the payload without them.  A document it inserts has exactly the
    declared fields and the two timestamps, and a validation error names
    declared fields only and inserts nothing. *)
Theorem create_ignores_undeclared_fields E c sch data w :
  schema_map !! c = Some sch ->
  create_item E c data w
    = create_item E c (filter (fun kv => kv.1 ∈ declared sch) data) w
  /\ (forall id w', create_item E c data w = (Return id, w') ->
        exists d,
          coll w' c = coll w c ++ [d]
          /\ str_of_ObjectId (doc_id d) = id
          /\ dom (doc_fields d)
             = list_to_set (declared sch) ∪ {["created_at"; "updated_at"]})
  /\ (forall errs w',
        create_item E c data w = (Raise (ValidationError errs), w') ->
        w' = w /\ errs <> [] /\ forall k m, (k, m) ∈ errs -> k ∈ declared sch).
Proof.
  intros Hsch. rewrite !(create_item_run _ _ _ _ _ Hsch).
  unfold model_validate. fold (declared_only sch data).
  rewrite <- (validate_fields_ext E sch data (declared_only sch data))
    by (intros k Hk; symmetry; by apply declared_only_lookup).
  split; [done|].
  destruct (validate_fields E sch data) as [errs out] eqn:Hv.
  destruct errs as [|e errs]; split.
  - intros id w' [= <- <-]. eexists. rewrite coll_set_coll_eq.
    split; [reflexivity|]. split; [done|]. cbn [doc_fields].
    rewrite !dom_insert_L, (validate_fields_dom _ _ _ _ Hv). set_solver.
  - intros errs w' [=].
  - intros id w' [=].
  - intros errs' w' [= <- <-]. split; [done|]. split; [done|].
    by eapply validate_fields_errors.
Qed.

Lemma schema_map_None c : schema_map !! c = None <-> c ∉ known_collections.
Proof.
  unfold schema_map. rewrite <- not_elem_of_list_to_map. reflexivity.
Qed.

Lemma create_item_unknown_collection E c data w :
  c ∉ known_collections ->
  create_item E c data w = (Raise (HTTPException 400 "Unknown collection"), w).
Proof.
  intros Hc. apply schema_map_None in Hc. unfold create_item. by rewrite Hc.
Qed.

Lemma public_list_total c limit w :
  public_list c limit w
  = (Return (map item_of (limit_to limit (sort_desc "created_at" (coll w c)))), w).
Proof. reflexivity. Qed.

Lemma admin_list_total c e limit w :
  admin_list c e limit w
  = (Return (map item_of (limit_to limit (sort_desc "created_at" (coll w c)))), w).
Proof. reflexivity. Qed.

(** ** The handlers on concrete requests *)

Lemma session_not_known : "session" ∉ known_collections.
Proof. apply schema_map_None. reflexivity. Qed.

(** C1.  The list routes do not look the collection up: asked for
    ["session"], which is none of the eleven content collections and which
    create refuses with status 400, the public list answers with the stored
    session, token included, and so does the admin list; a name that was
    never written lists as empty. *)
Theorem list_accepts_unknown_collection :
  ("session" ∉ known_collections)
  /\ create_item demo_env "session" ∅ w_login
     = (Raise (HTTPException 400 "Unknown collection"), w_login)
  /\ public_list "session" 50 w_login
     = (Return (map item_of (coll w_login "session")), w_login)
  /\ depends_admin (Some demo_token) (fun e => admin_list "session" e 200)
       w_login
     = (Return (map item_of (coll w_login "session")), w_login)
  /\ map (fun it : Dict => it !! "token") (map item_of (coll w_login "session"))
     = [Some (VStr demo_token)]
  /\ public_list "nosuchcollection" 50 w_login = (Return [], w_login).
Proof.
  split; [exact session_not_known|].
  split; [apply create_item_unknown_collection, session_not_known|].
  repeat split; vm_compute; reflexivity.
Qed.

(** C2.  Update and page write store what they are given.  The article
    created in [w_article] validates; after an update of its title to the
    integer 5, which answers ["updated"], the stored document no longer
    validates against [NewsArticle].  A page write under the key ["bogus"],
    which the schema's key set excludes, answers ["saved"] and stores a
    page that does not validate against [SchoolPage]. *)
Theorem update_and_set_page_skip_validation :
  let patch : Dict := {["title" := VInt 5]} in
  let update :=
    depends_admin (Some demo_token)
      (admin_update demo_env "newsarticle" demo_article_id patch) w_article in
  let page :=
    depends_admin (Some demo_token) (set_page demo_env "bogus" ∅) w_login in
  schema_map !! "newsarticle" = Some NewsArticle
  /\ schema_map !! "schoolpage" = Some SchoolPage
  /\ map (conforms demo_env NewsArticle) (coll w_article "newsarticle") = [true]
  /\ fst update = Return "updated"
  /\ map (conforms demo_env NewsArticle) (coll (snd update) "newsarticle")
     = [false]
  /\ fst page = Return "saved"
  /\ map (conforms demo_env SchoolPage) (coll (snd page) "schoolpage")
     = [false].
Proof. repeat split; vm_compute; reflexivity. Qed.

(** C3, as stated, fails: a news article payload with the undeclared key
    ["is_admin"] is not refused; create answers with an identifier and one
    document is inserted, without that key. *)
Lemma create_accepts_undeclared_field :
  let payload : Dict :=
    list_to_map [ ("title", VStr "Hello"); ("content", VStr "World");
                  ("is_admin", VBool true) ] in
  let result := create_item demo_env "newsarticle" payload empty_world in
  schema_map !! "newsarticle" = Some NewsArticle
  /\ ("is_admin" ∉ declared NewsArticle)
  /\ payload !! "is_admin" = Some (VBool true)
  /\ fst result = Return "000000000000000000000000"
  /\ (forall errs, fst result <> Raise (ValidationError errs))
  /\ map (fun d => doc_fields d !! "is_admin") (coll (snd result) "newsarticle")
     = [None].
Proof.
  cbv zeta. split; [reflexivity|]. split.
  { intros H. unfold declared, NewsArticle in H. cbn in H.
    repeat (apply elem_of_cons in H as [H|H]; [discriminate|]).
    by apply elem_of_nil in H. }
  split; [vm_compute; reflexivity|]. split; [vm_compute; reflexivity|].
  split; [|vm_compute; reflexivity].
  intros errs H.
  assert (fst (create_item demo_env "newsarticle"
                 (list_to_map [ ("title", VStr "Hello");
                                ("content", VStr "World");
                                ("is_admin", VBool true) ]) empty_world)
          = Return "000000000000000000000000") as Hr by (vm_compute; reflexivity).
  rewrite Hr in H. discriminate.
Qed.

(** C9, as stated, fails: after one login, a second logout with the token
    of that login does not leave the store of the first logout; it stamps
    the session's [updated_at] again. *)
Lemma logout_twice_restamps :
  let once := serve demo_env (Logout (Some demo_token)) w_login in
  let twice := serve demo_env (Logout (Some demo_token)) once in
  db twice <> db once
  /\ map (fun d => doc_fields d !! "updated_at") (coll once "session")
     = [Some (VTime 4)]
  /\ map (fun d => doc_fields d !! "updated_at") (coll twice "session")
     = [Some (VTime 5)]
  /\ map (fun d => doc_fields d !! "active") (coll once "session")
     = [Some (VBool false)]
  /\ map (fun d => doc_fields d !! "active") (coll twice "session")
     = [Some (VBool false)].
Proof.
  cbv zeta. split; [|repeat split; vm_compute; reflexivity].
  intros H.
  apply (f_equal (fun m : gmap string (list Doc) =>
                    map (fun d => doc_fields d !! "updated_at")
                        (default [] (m !! "session")))) in H.
  vm_compute in H. discriminate.
Qed.


(** ** The theorems at concrete inputs *)

Lemma login_rejects_other_addresses_witness :
  Str.lower "admin@example.com" <> MASTER_ADMIN_EMAIL
  /\ login demo_env "admin@example.com" empty_world
     = (Raise (HTTPException 403 "Anda tidak memiliki akses admin"),
        empty_world)
  /\ db (snd (login demo_env "admin@example.com" empty_world)) = db empty_world.
Proof.
  assert (H : Str.lower "admin@example.com" <> MASTER_ADMIN_EMAIL)
    by (vm_compute; discriminate).
  split; [exact H|].
  exact (login_rejects_other_addresses demo_env "admin@example.com"
           empty_world H).
Defined.

Lemma login_lowercases_email_witness :
  let e := "CAPROKTAROY03@GMAIL.COM" in
  is_capitalization MASTER_ADMIN_EMAIL e = true
  /\ e <> MASTER_ADMIN_EMAIL
  /\ exists w' s,
       login demo_env e empty_world
       = (Return (mkAuthResponse demo_token MASTER_ADMIN_EMAIL), w')
       /\ coll w' "session" = coll empty_world "session" ++ [s]
       /\ doc_fields s !! "email" = Some (VStr MASTER_ADMIN_EMAIL).
Proof.
  cbv zeta.
  assert (H : is_capitalization MASTER_ADMIN_EMAIL "CAPROKTAROY03@GMAIL.COM"
              = true) by reflexivity.
  split; [exact H|]. split; [discriminate|].
  destruct (proj1 (proj2 (proj2 (proj2
              (login_lowercases_email demo_env "CAPROKTAROY03@GMAIL.COM"
                 empty_world)))) H) as (w' & s & Hrun & Hsess & Hmail & _).
  exists w', s. split; [exact Hrun|]. split; [exact Hsess|exact Hmail].
Defined.

Lemma ensure_admin_guard_witness :
  reachable demo_env w_login
  /\ ensure_admin (Some demo_token) w_login
     = (Return (VStr MASTER_ADMIN_EMAIL), w_login)
  /\ forall A (h : value -> M A),
       depends_admin (Some demo_token) h w_login
       = h (VStr MASTER_ADMIN_EMAIL) w_login.
Proof.
  assert (H : reachable demo_env w_login) by apply reach_serve, reach_empty.
  assert (Hg : ensure_admin (Some demo_token) w_login
               = (Return (VStr MASTER_ADMIN_EMAIL), w_login))
    by (vm_compute; reflexivity).
  split; [exact H|]. split; [exact Hg|].
  intros A h.
  exact (proj1 (proj2 (proj2 (proj2 (proj2
           (ensure_admin_guard demo_env w_login (Some demo_token) H)))))
           A h _ Hg).
Defined.

Lemma identifier_decoding_witness :
  let s := "0123456789abcdef01234567" in
  well_formed_id s = true
  /\ (exists o, obj_id s w_login = (Return o, w_login))
  /\ depends_admin (Some demo_token)
       (admin_update demo_env "newsarticle" s ∅) w_login
     = (Raise (HTTPException 404 "Not found"), tick w_login)
  /\ depends_admin (Some demo_token) (admin_delete "newsarticle" s) w_login
     = (Raise (HTTPException 404 "Not found"), w_login).
Proof.
  cbv zeta.
  pose proof (identifier_decoding demo_env w_login) as (_ & _ & Hwf & Hnf).
  assert (Hs : well_formed_id "0123456789abcdef01234567" = true)
    by reflexivity.
  split; [exact Hs|]. split; [exact (Hwf _ Hs)|].
  apply (Hnf "newsarticle" "0123456789abcdef01234567"
           (default [] (ObjectId_of_str "0123456789abcdef01234567"))
           ∅ (Some demo_token) (VStr MASTER_ADMIN_EMAIL)).
  - vm_compute; reflexivity.
  - assert (coll w_login "newsarticle" = []) as -> by (vm_compute; reflexivity).
    constructor.
  - vm_compute; reflexivity.
Defined.

Lemma update_partial_merge_witness :
  let data : Dict := {["title" := VStr "X"]} in
  let d := default (mkDoc [] ∅) (head (coll w_article "newsarticle")) in
  ensure_admin (Some demo_token) w_article
    = (Return (VStr MASTER_ADMIN_EMAIL), w_article)
  /\ ObjectId_of_str demo_article_id = Some (doc_id d)
  /\ coll w_article "newsarticle" = [] ++ d :: []
  /\ exists w' d',
       depends_admin (Some demo_token)
         (admin_update demo_env "newsarticle" demo_article_id data) w_article
       = (Return "updated", w')
       /\ coll w' "newsarticle" = [] ++ d' :: []
       /\ doc_fields d' !! "title" = Some (VStr "X")
       /\ doc_fields d' !! "content" = doc_fields d !! "content".
Proof.
  cbv zeta.
  set (d := default (mkDoc [] ∅) (head (coll w_article "newsarticle"))).
  assert (H1 : ensure_admin (Some demo_token) w_article
               = (Return (VStr MASTER_ADMIN_EMAIL), w_article))
    by (vm_compute; reflexivity).
  assert (H2 : ObjectId_of_str demo_article_id = Some (doc_id d))
    by (vm_compute; reflexivity).
  assert (H3 : coll w_article "newsarticle" = [] ++ d :: [])
    by (vm_compute; reflexivity).
  split; [exact H1|]. split; [exact H2|]. split; [exact H3|].
  destruct (update_partial_merge demo_env "newsarticle" demo_article_id
              {["title" := VStr "X"]} (Some demo_token) _ w_article
              (doc_id d) [] d [] H1 H2 H3 eq_refl (List.Forall_nil _))
    as (w' & d' & Hrun & Hcoll & _ & _ & _ & Hset & Hkeep).
  exists w', d'. split; [exact Hrun|]. split; [exact Hcoll|]. split.
  - apply Hset; [discriminate|]. apply lookup_singleton_eq.
  - apply Hkeep; [discriminate|]. apply lookup_singleton_ne. discriminate.
Defined.


Lemma logout_total_witness :
  Str.truthy (Some demo_token) = true
  /\ fst (logout demo_env (Some demo_token) w_login) = Return "logged out"
  /\ forall c, c <> "session" ->
       coll (snd (logout demo_env (Some demo_token) w_login)) c
       = coll w_login c.
Proof.
  assert (H : Str.truthy (Some demo_token) = true) by reflexivity.
  split; [exact H|].
  destruct (proj1 (proj2 (proj2
              (logout_total demo_env (Some demo_token) w_login))) H)
    as (Hmsg & Hframe & _).
  split; [exact Hmsg|exact Hframe].
Defined.

Lemma create_ignores_undeclared_fields_witness :
  let payload : Dict :=
    list_to_map [ ("title", VStr "Hello"); ("content", VStr "World");
                  ("is_admin", VBool true) ] in
  schema_map !! "newsarticle" = Some NewsArticle
  /\ create_item demo_env "newsarticle" payload empty_world
     = create_item demo_env "newsarticle"
         (filter (fun kv => kv.1 ∈ declared NewsArticle) payload) empty_world.
Proof.
  cbv zeta. split; [reflexivity|].
  exact (proj1 (create_ignores_undeclared_fields demo_env "newsarticle"
                  NewsArticle _ empty_world eq_refl)).
Defined.

(** * Further properties *)

(** ** Lists of documents *)

Lemma find_pred_ext (p q : Doc -> bool) l :
  (forall d, p d = q d) -> List.find p l = List.find q l.
Proof. intros H. induction l as [|x l IH]; simpl; [done|]. by rewrite H, IH. Qed.

Lemma find_update_first (p : Doc -> bool) f l d :
  List.find p l = Some d -> p (f d) = true ->
  List.find p (update_first p f l) = Some (f d).
Proof.
  intros Hf Hp. induction l as [|x l IH]; simpl in *; [discriminate|].
  destruct (p x) eqn:Hx.
  - injection Hf as ->. simpl. by rewrite Hp.
  - simpl. rewrite Hx. by apply IH.
Qed.

Lemma find_app_new (p : Doc -> bool) l d :
  existsb p l = false -> p d = true -> List.find p (l ++ [d]) = Some d.
Proof.
  intros Hl Hd. induction l as [|x l IH]; simpl in *; [by rewrite Hd|].
  destruct (p x); [discriminate|]. by apply IH.
Qed.

Lemma remove_first_split (p : Doc -> bool) (l1 l2 : list Doc) d :
  Forall (fun x => p x = false) l1 -> p d = true ->
  remove_first p (l1 ++ d :: l2) = l1 ++ l2.
Proof.
  intros Hl1 Hd. induction Hl1 as [|x l1 Hx _ IH]; simpl.
  - by rewrite Hd.
  - by rewrite Hx, IH.
Qed.

Lemma map_id_update_first (p : Doc -> bool) s l :
  map doc_id (update_first p (apply_set s) l) = map doc_id l.
Proof.
  induction l as [|x l IH]; simpl; [done|].
  destruct (p x); simpl; [done|by rewrite IH].
Qed.

Lemma length_update_first (p : Doc -> bool) f l :
  length (update_first p f l) = length l.
Proof.
  induction l as [|x l IH]; simpl; [done|].
  destruct (p x); simpl; [done|by rewrite IH].
Qed.

Lemma length_remove_first (p : Doc -> bool) l :
  (length (remove_first p l) <= length l)%nat.
Proof.
  induction l as [|x l IH]; simpl; [done|].
  destruct (p x); simpl; lia.
Qed.

Lemma matches_id o d : matches [IdIs o] d = bool_decide (doc_id d = o).
Proof. unfold matches. cbn [forallb holds]. apply andb_true_r. Qed.

Lemma Forall_no_id o (l : list Doc) :
  Forall (fun x => doc_id x <> o) l ->
  Forall (fun x => matches [IdIs o] x = false) l.
Proof.
  intros H. eapply Forall_impl; [exact H|]. intros x Hx. rewrite matches_id.
  by apply bool_decide_eq_false_2.
Qed.

(** ** Pages *)

Lemma get_page_run key w :
  get_page key w =
    (match List.find (has_key key) (coll w "schoolpage") with
     | None => Return (default_page key)
     | Some d => Return (item_of d)
     end, w).
Proof.
  unfold get_page, bind, find_one.
  rewrite (find_pred_ext _ (has_key key)) by (intros d; apply matches_key).
  by destruct (List.find _ _).
Qed.

(** X1.  [get_page] never fails and never writes.  For a key that no stored
    page carries, whatever the key, it answers with a placeholder that has
    that key, an empty title and an empty content and no identifier; for a
    key that some page carries it answers with the first such page, its
    identifier in external form under ["_id"]. *)
Theorem get_page_soft_default key w :
  snd (get_page key w) = w
  /\ (pages_with_key key w = 0%nat ->
      exists item,
        fst (get_page key w) = Return item
        /\ item !! "key" = Some (VStr key)
        /\ item !! "title" = Some (VStr EmptyString)
        /\ item !! "content" = Some (VStr EmptyString)
        /\ item !! "_id" = None
        /\ dom item = {["key"; "title"; "content"]})
  /\ ((0 < pages_with_key key w)%nat ->
      exists d,
        List.find (has_key key) (coll w "schoolpage") = Some d
        /\ fst (get_page key w) = Return (item_of d)
        /\ item_of d !! "key" = Some (VStr key)
        /\ item_of d !! "_id" = Some (VStr (str_of_ObjectId (doc_id d)))
        /\ forall k, k <> "_id" -> item_of d !! k = doc_fields d !! k).
Proof.
  rewrite get_page_run. split; [done|]. unfold pages_with_key. split.
  - intros H0.
    assert (List.find (has_key key) (coll w "schoolpage") = None) as ->.
    { apply find_none_existsb.
      destruct (existsb _ _) eqn:Hex; [|done].
      apply existsb_exists in Hex as (d & Hin & Hd).
      assert (In d (List.filter (has_key key) (coll w "schoolpage"))) as Hf
        by (apply filter_In; done).
      destruct (List.filter _ _); [destruct Hf|discriminate]. }
    exists (default_page key). split; [done|]. unfold default_page.
    cbn [list_to_map foldr uncurry fst snd].
    split; [by simplify_map_eq|]. split; [by simplify_map_eq|].
    split; [by simplify_map_eq|]. split; [by simplify_map_eq|].
    rewrite !dom_insert_L, dom_empty_L. set_solver.
  - intros Hpos.
    destruct (List.find _ _) as [d|] eqn:Hf.
    + exists d. split; [done|]. split; [done|].
      apply find_some in Hf as [_ Hk]. apply has_key_iff in Hk.
      unfold item_of. split; [by rewrite lookup_insert_ne|].
      split; [by rewrite lookup_insert_eq|].
      intros k Hk'. by rewrite lookup_insert_ne.
    + apply find_none_existsb, existsb_filter_nil in Hf.
      rewrite Hf in Hpos. simpl in Hpos. lia.
Qed.

(** X2.  A page write that succeeds can be read back: [get_page] on the same
    key then answers with a page that carries the key of the path, the time
    of the write under [updated_at], an identifier, and every field of the
    payload other than those three. *)
Theorem set_page_then_get_page E key data e w msg :
  fst (set_page E key data e w) = Return msg ->
  let w' := snd (set_page E key data e w) in
  exists item,
    get_page key w' = (Return item, w')
    /\ item !! "key" = Some (VStr key)
    /\ item !! "updated_at" = Some (VTime (clock E (clock_reads w)))
    /\ is_Some (item !! "_id")
    /\ forall k v, data !! k = Some v ->
         k <> "key" -> k <> "updated_at" -> k <> "_id" -> item !! k = Some v.
Proof.
  rewrite set_page_run. cbv zeta.
  destruct (bool_decide _) eqn:Hc; [discriminate|]. intros _.
  assert (Hpatch : forall k v, data !! k = Some v ->
            k <> "key" -> k <> "updated_at" ->
            page_patch E key data w !! k = Some v).
  { intros k v Hv Hk1 Hk2. unfold page_patch. by rewrite !lookup_insert_ne. }
  rewrite get_page_run.
  destruct (existsb _ _) eqn:Hex; cbn [snd]; rewrite coll_set_coll_eq.
  - destruct (List.find (has_key key) (coll w "schoolpage")) as [d0|] eqn:Hf;
      [|apply find_none_existsb in Hf; congruence].
    assert (Hk : doc_fields (apply_set (page_patch E key data w) d0) !! "key"
                 = Some (VStr key))
      by (simpl; apply lookup_union_Some_l, page_patch_key).
    rewrite (find_update_first _ _ _ _ Hf) by by apply has_key_iff.
    eexists. split; [reflexivity|]. unfold item_of.
    split; [by rewrite lookup_insert_ne|].
    split; [rewrite lookup_insert_ne by done; simpl;
            apply lookup_union_Some_l, page_patch_updated|].
    split; [rewrite lookup_insert_eq; eauto|].
    intros k v Hv Hk1 Hk2 Hk3. rewrite lookup_insert_ne by done. simpl.
    by apply lookup_union_Some_l, Hpatch.
  - set (new := mkDoc _ _).
    assert (Hk : doc_fields new !! "key" = Some (VStr key))
      by (simpl; apply lookup_union_Some_l, lookup_union_Some_l,
            page_patch_key).
    rewrite (find_app_new _ _ new Hex) by by apply has_key_iff.
    eexists. split; [reflexivity|]. unfold item_of.
    split; [by rewrite lookup_insert_ne|].
    split; [rewrite lookup_insert_ne by done; simpl;
            apply lookup_union_Some_l, lookup_union_Some_l,
              page_patch_updated|].
    split; [rewrite lookup_insert_eq; eauto|].
    intros k v Hv Hk1 Hk2 Hk3. rewrite lookup_insert_ne by done. simpl.
    by apply lookup_union_Some_l, lookup_union_Some_l, Hpatch.
Qed.

(** ** Delete *)

(** X3.  A delete of a document that the collection holds once removes that
    document and nothing else: the other documents keep their order, the
    other collections are untouched, and the identifier is then gone, so a
    second delete and an update with it are both refused with status 404. *)
Theorem delete_removes_document E c i e w o l1 d l2 :
  ObjectId_of_str i = Some o ->
  coll w c = l1 ++ d :: l2 ->
  doc_id d = o ->
  Forall (fun x => doc_id x <> o) (l1 ++ l2) ->
  exists w',
    admin_delete c i e w = (Return "deleted", w')
    /\ coll w' c = l1 ++ l2
    /\ (forall c', c' <> c -> coll w' c' = coll w c')
    /\ (forall e', admin_delete c i e' w'
                   = (Raise (HTTPException 404 "Not found"), w'))
    /\ (forall data e', admin_update E c i data e' w'
                        = (Raise (HTTPException 404 "Not found"), tick w')).
Proof.
  intros Ho Hc Hd Hrest.
  apply Forall_app in Hrest as Hparts. destruct Hparts as [Hl1 Hl2].
  assert (Hmd : matches [IdIs o] d = true)
    by (rewrite matches_id; by apply bool_decide_eq_true_2).
  rewrite (admin_delete_run _ _ _ _ _ Ho).
  assert (existsb (matches [IdIs o]) (coll w c) = true) as ->.
  { rewrite Hc. apply existsb_exists. exists d. split; [|done].
    apply in_or_app. right. by left. }
  eexists. split; [reflexivity|]. rewrite coll_set_coll_eq.
  assert (Hnew : remove_first (matches [IdIs o]) (coll w c) = l1 ++ l2).
  { rewrite Hc. apply remove_first_split; [by apply Forall_no_id|done]. }
  rewrite Hnew. split; [done|].
  split; [intros c' Hc'; by rewrite coll_set_coll_ne|].
  split.
  - intros e'. rewrite (admin_delete_run _ _ _ _ _ Ho).
    rewrite coll_set_coll_eq. by rewrite (existsb_id_none _ _ Hrest).
  - intros data e'. rewrite (admin_update_run _ _ _ _ _ _ _ Ho). cbv zeta.
    rewrite coll_set_coll_eq. by rewrite (existsb_id_none _ _ Hrest).
Qed.

(** ** What a request may change *)

Lemma ensure_admin_world t w : snd (ensure_admin t w) = w.
Proof.
  rewrite ensure_admin_run. destruct (negb _); [done|].
  destruct (List.find _ _); [|done]. by destruct (_ !! _).
Qed.

Lemma depends_admin_refused {A} t (h : value -> M A) w :
  (forall e, ensure_admin t w <> (Return e, w)) ->
  snd (depends_admin t h w) = w.
Proof.
  intros Hno. unfold depends_admin, bind.
  pose proof (ensure_admin_world t w) as Hw.
  destruct (ensure_admin t w) as [[e|ex] w']; simpl in Hw; subst w'.
  - by destruct (Hno e).
  - done.
Qed.

Lemma guard_decides t w :
  (exists e, ensure_admin t w = (Return e, w))
  \/ (forall e, ensure_admin t w <> (Return e, w)).
Proof.
  pose proof (ensure_admin_world t w) as Hw.
  destruct (ensure_admin t w) as [[e|ex] w']; simpl in Hw; subst w'.
  - left. by exists e.
  - right. intros e. discriminate.
Qed.

(** X4.  The store changes only under authority.  A request that leaves a
    store other than the one it found is a login of the master address, a
    logout that carries a token, or an admin write whose token passes the
    guard; the list routes and the page read never write, and an admin
    write whose token is refused writes nothing. *)
Theorem store_changes_need_authority E r w :
  db (serve E r w) <> db w -> entitled r w.
Proof.
  destruct r; cbn [serve entitled]; intros Hne.
  - destruct (String.eqb_spec (Str.lower payload_email) MASTER_ADMIN_EMAIL)
      as [Heq|Hdiff]; [done|].
    destruct Hne. unfold login.
    destruct (String.eqb_spec (Str.lower payload_email) MASTER_ADMIN_EMAIL);
      done.
  - destruct (Str.truthy auth_token) eqn:Ht; [done|].
    destruct Hne. rewrite logout_run. by rewrite Ht.
  - by destruct Hne.
  - destruct Hne. unfold depends_admin, bind.
    pose proof (ensure_admin_world auth_token w) as Hw.
    destruct (ensure_admin auth_token w) as [[e|ex] w']; simpl in Hw; by subst.
  - destruct (guard_decides auth_token w) as [?|Hno]; [done|].
    destruct Hne. by rewrite depends_admin_refused.
  - destruct (guard_decides auth_token w) as [?|Hno]; [done|].
    destruct Hne. by rewrite depends_admin_refused.
  - destruct (guard_decides auth_token w) as [?|Hno]; [done|].
    destruct Hne. by rewrite depends_admin_refused.
  - destruct Hne. by rewrite get_page_run.
  - destruct (guard_decides auth_token w) as [?|Hno]; [done|].
    destruct Hne. by rewrite depends_admin_refused.
Qed.

(** ** Identifiers in place *)

Lemma ids_set_coll c l w c' :
  ids (set_coll c l w) c' = if decide (c = c') then map doc_id l else ids w c'.
Proof. unfold ids. rewrite coll_set_coll. by case_decide. Qed.

Lemma admin_update_ids E c i data e w c' :
  ids (snd (admin_update E c i data e w)) c' = ids w c'.
Proof.
  destruct (ObjectId_of_str i) as [o|] eqn:Ho.
  - rewrite (admin_update_run _ _ _ _ _ _ _ Ho). cbv zeta.
    destruct (existsb _ _); cbn [snd]; [|done].
    rewrite ids_set_coll. case_decide; [|done]. subst c'.
    by rewrite map_id_update_first.
  - unfold admin_update. rewrite bind_now. unfold obj_id. by rewrite Ho.
Qed.

Lemma logout_ids E t w c' : ids (snd (logout E t w)) c' = ids w c'.
Proof.
  rewrite logout_run. destruct (negb _); [done|]. cbn [snd].
  destruct (existsb _ _); [|done].
  rewrite ids_set_coll. case_decide; [|done]. subst c'.
  by rewrite map_id_update_first.
Qed.

(** X5.  Updates are in place.  A logout, an update and the three reads
    leave, in every collection, the same identifiers in the same order: they
    never insert, remove or re-identify a document.  In particular an update
    with an identifier that no document carries does not create one. *)
Theorem in_place_requests_keep_identifiers E r w c :
  in_place r = true -> ids (serve E r w) c = ids w c.
Proof.
  destruct r; try discriminate; intros _; cbn [serve].
  - apply logout_ids.
  - done.
  - unfold depends_admin, bind.
    pose proof (ensure_admin_world auth_token w) as Hw.
    destruct (ensure_admin auth_token w) as [[e|ex] w']; simpl in Hw; by subst.
  - unfold depends_admin, bind.
    pose proof (ensure_admin_world auth_token w) as Hw.
    destruct (ensure_admin auth_token w) as [[e|ex] w']; simpl in Hw; subst;
      [apply admin_update_ids|done].
  - by rewrite get_page_run.
Qed.

(** ** Login *)

Lemma after_user_upsert_run E w :
  after_user_upsert E w =
    let patch := login_user_patch (VTime (clock E (clock_reads w))) in
    let crt := VTime (clock E (S (clock_reads w))) in
    if existsb is_master_user (coll w "user") then
      set_coll "user"
        (update_first is_master_user (apply_set patch) (coll w "user"))
        (tick (tick w))
    else
      set_coll "user"
        (coll w "user" ++
         [mkDoc (oid_supply E (oids_issued w))
            (patch ∪ {["created_at" := crt]} ∪ filter_fields login_user_filter)])
        (mkWorld (db w) (S (S (clock_reads w))) (entropy_used w)
           (S (oids_issued w))).
Proof.
  unfold after_user_upsert.
  rewrite update_one_run by apply login_conflict_free.
  rewrite !coll_tick. cbv zeta.
  assert (Hm : forall d, matches login_user_filter d = is_master_user d)
    by (intros d; unfold matches, login_user_filter, is_master_user;
        cbn [forallb]; apply andb_true_r).
  rewrite (existsb_pred_ext _ _ _ Hm), (update_first_ext _ _ _ _ Hm).
  by destruct (existsb _ _).
Qed.

Lemma after_user_upsert_coll E w c :
  c <> "user" -> coll (after_user_upsert E w) c = coll w c.
Proof.
  intros Hc. rewrite after_user_upsert_run. cbv zeta.
  destruct (existsb _ _); by rewrite coll_set_coll_ne.
Qed.

Lemma after_user_upsert_counters E w :
  clock_reads (after_user_upsert E w) = S (S (clock_reads w))
  /\ entropy_used (after_user_upsert E w) = entropy_used w.
Proof.
  rewrite after_user_upsert_run. cbv zeta. by destruct (existsb _ _).
Qed.

Lemma login_run E e w :
  Str.lower e = MASTER_ADMIN_EMAIL ->
  login E e w =
    let wu := after_user_upsert E w in
    (Return (mkAuthResponse (login_token E w) MASTER_ADMIN_EMAIL),
     set_coll "session" (coll w "session" ++ [login_session E w])
       (mkWorld (db wu) (S (S (S (S (clock_reads w))))) (entropy_used w + 24)
          (S (oids_issued wu)))).
Proof.
  intros Hm. unfold login. rewrite Hm, String.eqb_refl. cbv [negb].
  rewrite !bind_now. cbv zeta.
  fold (login_user_patch (VTime (clock E (clock_reads w)))).
  fold login_user_filter.
  change (clock_reads (tick w)) with (S (clock_reads w)).
  unfold bind at 1.
  pose proof (after_user_upsert_counters E w) as [Hclk Hent].
  pose proof (after_user_upsert_coll E w "session") as Hsess.
  unfold after_user_upsert in *.
  destruct (update_one E "user" _ _ _ true (tick (tick w))) as [[n|ex] wu]
    eqn:Hu.
  - cbn [snd] in *. unfold bind, urandom, now, insert_one, fresh_oid, bind, ret.
    cbn [tick clock_reads entropy_used oids_issued db].
    unfold login_session, login_token, set_coll, coll, after_user_upsert.
    rewrite Hu. cbn [snd db clock_reads entropy_used oids_issued].
    unfold coll in Hsess. rewrite Hsess by done. rewrite Hclk, Hent. done.
  - exfalso. rewrite update_one_run in Hu by apply login_conflict_free.
    cbv zeta in Hu. repeat case_match; discriminate.
Qed.

Lemma hex_length bs : String.length (Str.hex bs) = (2 * length bs)%nat.
Proof. induction bs as [|b bs IH]; simpl; [done|]. rewrite IH. lia. Qed.

Lemma hex_digits_of_byte b :
  is_hex_digit (Str.hex_digit (Byte.to_N b / 16)) = true
  /\ is_hex_digit (Str.hex_digit (Byte.to_N b mod 16)) = true
  /\ Str.hex_value (Str.hex_digit (Byte.to_N b / 16)) = Some (Byte.to_N b / 16)%N
  /\ Str.hex_value (Str.hex_digit (Byte.to_N b mod 16))
     = Some (Byte.to_N b mod 16)%N.
Proof. destruct b; vm_compute; done. Qed.

Lemma hex_all_digits bs :
  forallb is_hex_digit (list_ascii_of_string (Str.hex bs)) = true.
Proof.
  induction bs as [|b bs IH]; [done|].
  cbn [Str.hex list_ascii_of_string forallb].
  destruct (hex_digits_of_byte b) as (-> & -> & _). exact IH.
Qed.

(** Decoding undoes encoding. *)
Lemma fromhex_hex bs : Str.fromhex (Str.hex bs) = Some bs.
Proof.
  induction bs as [|b bs IH]; [done|].
  cbn [Str.hex Str.fromhex].
  destruct (hex_digits_of_byte b) as (_ & _ & -> & ->). rewrite IH.
  rewrite N.mul_comm, <- N.div_mod by done. by rewrite Byte.of_to_N.
Qed.

Lemma login_token_shape E w :
  String.length (login_token E w) = 48%nat
  /\ forallb is_hex_digit (list_ascii_of_string (login_token E w)) = true
  /\ Str.truthy (Some (login_token E w)) = true.
Proof.
  unfold login_token. split; [|split].
  - by rewrite hex_length, length_map, length_seq.
  - apply hex_all_digits.
  - pose proof (hex_length (map (entropy E) (seq (entropy_used w) 24))) as H.
    rewrite length_map, length_seq in H.
    by destruct (Str.hex _).
Qed.

Lemma login_session_fields E w :
  doc_fields (login_session E w) !! "email" = Some (VStr MASTER_ADMIN_EMAIL)
  /\ doc_fields (login_session E w) !! "token" = Some (VStr (login_token E w))
  /\ doc_fields (login_session E w) !! "active" = Some (VBool true).
Proof.
  unfold login_session. cbn [doc_fields list_to_map foldr uncurry fst snd].
  repeat split; by simplify_map_eq.
Qed.

Lemma find_app_miss (p : Doc -> bool) l d :
  p d = false -> List.find p (l ++ [d]) = List.find p l.
Proof.
  intros Hd. induction l as [|x l IH]; simpl; [by rewrite Hd|].
  by destruct (p x).
Qed.

Lemma find_app_fresh (p : Doc -> bool) l d :
  Forall (fun x => p x = false) l -> p d = true ->
  List.find p (l ++ [d]) = Some d.
Proof.
  intros Hl Hd. induction Hl as [|x l Hx _ IH]; simpl; [by rewrite Hd|].
  by rewrite Hx.
Qed.

Lemma guard_find_ext t w w' :
  List.find (matches [FieldIs "token" (VStr t); FieldIs "active" (VBool true)])
    (coll w' "session")
  = List.find (matches [FieldIs "token" (VStr t); FieldIs "active" (VBool true)])
      (coll w "session") ->
  fst (ensure_admin (Some t) w') = fst (ensure_admin (Some t) w).
Proof.
  intros H. rewrite !ensure_admin_run. destruct (negb _); [done|].
  change (default EmptyString (Some t)) with t. rewrite H. clear H.
  destruct (List.find _ _) as [s|]; [|reflexivity].
  destruct (doc_fields s !! "email"); reflexivity.
Qed.

(** X6.  The token of a login opens the guard.  A successful login answers
    with a token of 48 hexadecimal characters and the master address; unless
    an active session already carried that token, the guard then accepts the
    token and yields the master address. *)
Theorem login_token_passes_guard E e w :
  Str.lower e = MASTER_ADMIN_EMAIL ->
  Forall (fun s => ~ active_for (login_token E w) s) (coll w "session") ->
  let w' := snd (login E e w) in
  fst (login E e w)
    = Return (mkAuthResponse (login_token E w) MASTER_ADMIN_EMAIL)
  /\ String.length (login_token E w) = 48%nat
  /\ forallb is_hex_digit (list_ascii_of_string (login_token E w)) = true
  /\ ensure_admin (Some (login_token E w)) w'
     = (Return (VStr MASTER_ADMIN_EMAIL), w').
Proof.
  intros Hm Hfresh. rewrite (login_run _ _ _ Hm). cbv zeta. cbn [fst snd].
  destruct (login_token_shape E w) as (Hlen & Hhex & Htruthy).
  destruct (login_session_fields E w) as (Hmail & Htok & Hact).
  split; [done|]. split; [done|]. split; [done|].
  rewrite ensure_admin_run, Htruthy. cbn [negb].
  change (default EmptyString (Some (login_token E w))) with (login_token E w).
  rewrite coll_set_coll_eq.
  rewrite (find_app_fresh _ _ (login_session E w)).
  - by rewrite Hmail.
  - eapply Forall_impl; [exact Hfresh|]. intros s Hs.
    destruct (matches _ s) eqn:Hms; [|done].
    apply matches_active in Hms. by destruct Hs.
  - by apply matches_active.
Qed.

(** X7.  A login does not disturb the sessions that exist: the sessions of
    before are all kept, unchanged and in order, and for every token other
    than the one just issued the guard answers after the login as it did
    before, whether the login succeeded or was refused. *)
Theorem login_keeps_other_sessions E e w t :
  t <> login_token E w ->
  let w' := snd (login E e w) in
  (exists new, coll w' "session" = coll w "session" ++ new
               /\ (length new <= 1)%nat)
  /\ fst (ensure_admin (Some t) w') = fst (ensure_admin (Some t) w).
Proof.
  intros Ht. cbv zeta.
  destruct (String.eqb_spec (Str.lower e) MASTER_ADMIN_EMAIL) as [Hm|Hne].
  - rewrite (login_run _ _ _ Hm). cbv zeta. cbn [snd].
    split.
    + exists [login_session E w]. rewrite coll_set_coll_eq. split; [done|].
      simpl. lia.
    + apply guard_find_ext. rewrite coll_set_coll_eq.
      apply find_app_miss.
      destruct (matches _ _) eqn:Hms; [|done].
      apply matches_active in Hms as [Htok _].
      destruct (login_session_fields E w) as (_ & Htok' & _). congruence.
  - assert (login E e w
            = (Raise (HTTPException 403 "Anda tidak memiliki akses admin"), w))
      as ->.
    { unfold login.
      destruct (String.eqb_spec (Str.lower e) MASTER_ADMIN_EMAIL); done. }
    cbn [snd]. split; [|done]. exists []. rewrite app_nil_r.
    split; [done|simpl; lia].
Qed.

(** ** Logout and the guard *)

Lemma token_filter_has_token t d :
  matches (token_filter (Some t)) d = has_token t d.
Proof. unfold matches, token_filter, has_token. cbn [forallb]. apply andb_true_r. Qed.

Lemma has_token_iff t d :
  has_token t d = true <-> doc_fields d !! "token" = Some (VStr t).
Proof. apply holds_field_str. Qed.

Lemma find_Forall_none (p : Doc -> bool) l :
  Forall (fun x => p x = false) l -> List.find p l = None.
Proof. induction 1 as [|x l Hx _ IH]; simpl; [done|]. by rewrite Hx. Qed.

Lemma find_update_first_other (p q : Doc -> bool) f l :
  (forall d, p d = true -> q d = false /\ q (f d) = false) ->
  List.find q (update_first p f l) = List.find q l.
Proof.
  intros H. induction l as [|x l IH]; simpl; [done|].
  destruct (p x) eqn:Hp; simpl.
  - destruct (H x Hp) as [-> ->]. done.
  - by rewrite IH.
Qed.

Lemma guard_filter_token t d :
  matches [FieldIs "token" (VStr t); FieldIs "active" (VBool true)] d = true ->
  has_token t d = true.
Proof. intros [Ht _]%matches_active. by apply has_token_iff. Qed.

(** X8.  A logout revokes its token.  When one session carries the token,
    the guard refuses the token after the logout, with status 401, and for
    every other token the guard answers as it did before. *)
Theorem logout_revokes_token E t w l1 s l2 :
  t <> EmptyString ->
  coll w "session" = l1 ++ s :: l2 ->
  has_token t s = true ->
  Forall (fun x => has_token t x = false) (l1 ++ l2) ->
  let w' := snd (logout E (Some t) w) in
  fst (logout E (Some t) w) = Return "logged out"
  /\ ensure_admin (Some t) w'
     = (Raise (HTTPException 401 "Invalid or expired token"), w')
  /\ forall t', t' <> t ->
       fst (ensure_admin (Some t') w') = fst (ensure_admin (Some t') w).
Proof.
  intros Hne Hc Hs Hrest. cbv zeta.
  apply Forall_app in Hrest as Hparts. destruct Hparts as [Hl1 Hl2].
  assert (Htruthy : Str.truthy (Some t) = true)
    by (apply truthy_Some; eauto).
  rewrite logout_run, Htruthy. cbn [negb fst snd]. split; [done|].
  rewrite (existsb_pred_ext _ _ _ (token_filter_has_token t)).
  rewrite (update_first_ext _ _ _ _ (token_filter_has_token t)).
  assert (existsb (has_token t) (coll w "session") = true) as ->.
  { rewrite Hc. apply existsb_exists. exists s. split; [|done].
    apply in_or_app. right. by left. }
  split.
  - rewrite ensure_admin_run, Htruthy. cbn [negb].
    change (default EmptyString (Some t)) with t.
    rewrite coll_set_coll_eq, Hc, (update_first_split _ _ _ _ _ Hl1 Hs).
    rewrite find_Forall_none; [done|].
    apply Forall_app. split; [|constructor].
    + eapply Forall_impl; [exact Hl1|]. intros x Hx.
      destruct (matches _ x) eqn:Hm; [|done].
      apply guard_filter_token in Hm. congruence.
    + destruct (matches _ _) eqn:Hm; [|done].
      apply matches_active in Hm as [_ Hact]. simpl in Hact.
      rewrite (lookup_union_Some_l _ _ _ (VBool false)) in Hact;
        [discriminate|].
      by rewrite logout_patch_lookup.
    + eapply Forall_impl; [exact Hl2|]. intros x Hx.
      destruct (matches _ x) eqn:Hm; [|done].
      apply guard_filter_token in Hm. congruence.
  - intros t' Ht'. apply guard_find_ext. rewrite coll_set_coll_eq.
    apply find_update_first_other. intros d Hd.
    apply has_token_iff in Hd.
    split.
    + destruct (matches _ d) eqn:Hm; [|done].
      apply matches_active in Hm as [Htok _]. congruence.
    + destruct (matches _ _) eqn:Hm; [|done].
      apply matches_active in Hm as [Htok _]. simpl in Htok.
      rewrite lookup_union_r in Htok
        by (rewrite logout_patch_lookup; by repeat case_decide).
      congruence.
Qed.

(** ** The user of a login *)

Lemma is_master_user_iff d :
  is_master_user d = true
  <-> doc_fields d !! "email" = Some (VStr MASTER_ADMIN_EMAIL).
Proof. apply holds_field_str. Qed.

Lemma login_user_patch_lookup upd k :
  login_user_patch upd !! k =
    if decide (k = "email") then Some (VStr MASTER_ADMIN_EMAIL)
    else if decide (k = "name") then Some (VStr "Admin Master")
    else if decide (k = "role") then Some (VStr "admin")
    else if decide (k = "updated_at") then Some upd else None.
Proof.
  unfold login_user_patch. cbn [list_to_map foldr uncurry fst snd].
  repeat case_decide; subst; simplify_map_eq; done.
Qed.

Lemma existsb_filter_length (p : Doc -> bool) l :
  existsb p l = true -> (1 <= length (List.filter p l))%nat.
Proof.
  induction l as [|x l IH]; simpl; [discriminate|].
  destruct (p x); simpl; [lia|auto].
Qed.

(** X9.  A login upserts the user of the master address.  It adds a user
    document only when none has that address, and then exactly one; the
    first user with the address has, after the login, the name and the role
    of the master administrator and the time of the call under
    [updated_at]; a user that existed keeps its identifier and its
    [created_at]. *)
Theorem login_upserts_master_user E e w :
  Str.lower e = MASTER_ADMIN_EMAIL ->
  let w' := snd (login E e w) in
  master_users w' = Nat.max 1 (master_users w)
  /\ exists u,
       List.find is_master_user (coll w' "user") = Some u
       /\ doc_fields u !! "name" = Some (VStr "Admin Master")
       /\ doc_fields u !! "role" = Some (VStr "admin")
       /\ doc_fields u !! "updated_at" = Some (VTime (clock E (clock_reads w)))
       /\ match List.find is_master_user (coll w "user") with
          | Some u0 =>
              doc_id u = doc_id u0
              /\ doc_fields u !! "created_at" = doc_fields u0 !! "created_at"
          | None =>
              doc_fields u !! "created_at"
              = Some (VTime (clock E (S (clock_reads w))))
          end.
Proof.
  intros Hm. rewrite (login_run _ _ _ Hm). cbv zeta. cbn [snd].
  unfold master_users. rewrite coll_set_coll_ne by done.
  unfold coll at 1 3. cbn [db]. fold (coll (after_user_upsert E w) "user").
  rewrite after_user_upsert_run. cbv zeta.
  set (patch := login_user_patch _).
  assert (Hkeep : forall d, is_master_user (apply_set patch d) = true).
  { intros d. apply is_master_user_iff. simpl. apply lookup_union_Some_l.
    unfold patch. by rewrite login_user_patch_lookup. }
  destruct (existsb _ _) eqn:Hex; rewrite coll_set_coll_eq.
  - split.
    + rewrite filter_update_first_length
        by (intros d Hd; by rewrite Hkeep, Hd).
      apply existsb_filter_length in Hex. lia.
    + destruct (List.find is_master_user (coll w "user")) as [u0|] eqn:Hf;
        [|apply find_none_existsb in Hf; congruence].
      exists (apply_set patch u0).
      split; [by apply find_update_first|].
      simpl. unfold patch.
      split; [apply lookup_union_Some_l; by rewrite login_user_patch_lookup|].
      split; [apply lookup_union_Some_l; by rewrite login_user_patch_lookup|].
      split; [apply lookup_union_Some_l; by rewrite login_user_patch_lookup|].
      split; [done|]. apply lookup_union_r.
      by rewrite login_user_patch_lookup.
  - set (new := mkDoc _ _).
    assert (Hnew : is_master_user new = true).
    { apply is_master_user_iff. simpl.
      apply lookup_union_Some_l, lookup_union_Some_l.
      unfold patch. by rewrite login_user_patch_lookup. }
    split.
    + rewrite List.filter_app, length_app, (existsb_filter_nil _ _ Hex).
      cbn [List.filter]. rewrite Hnew. simpl. lia.
    + apply find_none_existsb in Hex as Hf. rewrite Hf.
      exists new. split; [by apply find_app_new|]. simpl. unfold patch.
      split; [apply lookup_union_Some_l, lookup_union_Some_l;
              by rewrite login_user_patch_lookup|].
      split; [apply lookup_union_Some_l, lookup_union_Some_l;
              by rewrite login_user_patch_lookup|].
      split; [apply lookup_union_Some_l, lookup_union_Some_l;
              by rewrite login_user_patch_lookup|].
      apply lookup_union_Some_l. rewrite lookup_union_r
        by by rewrite login_user_patch_lookup.
      apply lookup_singleton_eq.
Qed.

(** ** Where sessions come from *)

Lemma serve_sessions_shrinking E P r w :
  shrinking P -> (forall e, r <> Login e) ->
  on_coll "session" P w -> on_coll "session" P (serve E r w).
Proof.
  intros HP Hr. pose proof HP as [Hupd Hdel].
  destruct r; cbn [serve].
  - by destruct (Hr payload_email).
  - assert (preserves (on_coll "session" P) (logout E auth_token)) as H;
      [|apply H].
    unfold logout. destruct (negb _); [apply preserves_ret|].
    repeat preserves_step.
    apply preserves_update_one; [|discriminate]. intros _ l. apply Hupd.
  - assert (preserves (on_coll "session" P) (public_list collection limit))
      as H; [|apply H].
    unfold public_list. repeat preserves_step.
  - apply preserves_depends_admin; [preserves_step|intros ?].
    unfold admin_list. repeat preserves_step.
  - apply preserves_depends_admin; [preserves_step|intros ?].
    unfold admin_create, create_item.
    destruct (schema_map !! collection) as [sch|] eqn:Hsch; [|preserves_step].
    destruct (model_validate E sch data); repeat preserves_step.
    apply preserves_insert_one. intros ->.
    by rewrite schema_map_session in Hsch.
  - apply preserves_depends_admin; [preserves_step|intros ?].
    unfold admin_update. repeat preserves_step.
    + apply preserves_update_one; [|discriminate]. intros _ l. apply Hupd.
    + destruct (Nat.eqb _ _); preserves_step.
  - apply preserves_depends_admin; [preserves_step|intros ?].
    unfold admin_delete. repeat preserves_step.
    + apply preserves_delete_one. intros _ l. apply Hdel.
    + destruct (Nat.eqb _ _); preserves_step.
  - assert (preserves (on_coll "session" P) (get_page key)) as H; [|apply H].
    unfold get_page. repeat preserves_step.
    match goal with a : option Doc |- _ => destruct a end; preserves_step.
  - apply preserves_depends_admin; [preserves_step|intros ?].
    unfold set_page. repeat preserves_step.
    apply preserves_update_one; [|discriminate]. intros _ l. apply Hupd.
Qed.

Lemma length_bound_shrinking n :
  shrinking (fun l => (length l <= n)%nat).
Proof.
  split.
  - intros p f l. by rewrite length_update_first.
  - intros p l Hl. pose proof (length_remove_first p l). lia.
Qed.

(** X10.  Sessions come from logins only.  A request after which the session
    collection is longer than before is a login of the master address, and
    it has appended exactly the one session of that login; no other route
    can insert a session. *)
Theorem only_login_adds_sessions E r w :
  (length (coll w "session") < length (coll (serve E r w) "session"))%nat ->
  exists e,
    r = Login e /\ Str.lower e = MASTER_ADMIN_EMAIL
    /\ coll (serve E r w) "session" = coll w "session" ++ [login_session E w].
Proof.
  intros Hlen.
  destruct (match r with Login _ => true | _ => false end) eqn:Hr.
  - destruct r; try discriminate. exists payload_email. cbn [serve] in *.
    destruct (String.eqb_spec (Str.lower payload_email) MASTER_ADMIN_EMAIL)
      as [Hm|Hne].
    + split; [done|]. split; [done|]. rewrite (login_run _ _ _ Hm).
      cbv zeta. cbn [snd]. by rewrite coll_set_coll_eq.
    + exfalso. unfold login in Hlen.
      destruct (String.eqb_spec (Str.lower payload_email) MASTER_ADMIN_EMAIL);
        [done|]. cbn in Hlen. lia.
  - exfalso.
    pose proof (serve_sessions_shrinking E _ r w
                  (length_bound_shrinking (length (coll w "session")))) as H.
    unfold on_coll in H.
    assert (forall e, r <> Login e) as Hnl by (intros e ->; discriminate).
    specialize (H Hnl ltac:(lia)). lia.
Qed.

(** ** Validation *)

Lemma coerce_has_type E t : forall v v',
  coerce E t v = Some v' -> has_type t v' = true.
Proof.
  induction t as [| | |l|t IH|t IH]; intros v v'; cbn [coerce has_type].
  - destruct v; try discriminate. by intros [= <-].
  - destruct v as [|b|z|s|l|t]; try discriminate.
    + by intros [= <-].
    + by intros [= <-].
    + destruct (int_of_str E s); simpl; [by intros [= <-]|discriminate].
  - destruct v as [|b|z|s|l|t]; try discriminate.
    destruct (email_validator E s); simpl; [by intros [= <-]|discriminate].
  - destruct v as [|b|z|s|l'|t]; try discriminate.
    case_bool_decide; [|discriminate]. intros [= <-].
    by apply bool_decide_eq_true_2.
  - destruct v as [|b|z|s|vs|t']; try discriminate.
    destruct (mapM (coerce E t) vs) as [vs'|] eqn:Hm; [|discriminate].
    simpl. intros [= <-]. apply mapM_Some in Hm.
    induction Hm as [|x y xs ys Hxy _ IHm]; [done|].
    cbn [forallb]. by rewrite (IH _ _ Hxy), IHm.
  - destruct v; try (intros H; apply IH in H; by destruct v').
    by intros [= <-].
Qed.

Lemma coerce_idempotent E t :
  idempotent (email_validator E) ->
  forall v v', coerce E t v = Some v' -> coerce E t v' = Some v'.
Proof.
  intros Hid.
  induction t as [| | |l|t IH|t IH]; intros v v'; cbn [coerce].
  - destruct v; try discriminate. by intros [= <-].
  - destruct v as [|b|z|s|l|t]; try discriminate.
    + by intros [= <-].
    + by intros [= <-].
    + destruct (int_of_str E s); simpl; [by intros [= <-]|discriminate].
  - destruct v as [|b|z|s|l|t]; try discriminate.
    destruct (email_validator E s) as [s'|] eqn:Hs; simpl; [|discriminate].
    intros [= <-]. by rewrite (Hid _ _ Hs).
  - destruct v as [|b|z|s|l'|t]; try discriminate.
    case_bool_decide; [|discriminate]. intros [= <-].
    by rewrite bool_decide_eq_true_2.
  - destruct v as [|b|z|s|vs|t']; try discriminate.
    destruct (mapM (coerce E t) vs) as [vs'|] eqn:Hm; [|discriminate].
    simpl. intros [= <-]. apply mapM_Some in Hm.
    assert (mapM (coerce E t) vs' = Some vs') as ->; [|done].
    apply mapM_Some.
    induction Hm as [|x y xs ys Hxy _ IHm]; constructor; eauto.
  - destruct v; try (intros H; pose proof (IH _ _ H) as H'; by destruct v').
    by intros [= <-].
Qed.

Lemma validate_fields_nil_inv E f sch data out :
  validate_fields E (f :: sch) data = ([], out) ->
  exists v out',
    validate_field E f data = inr v
    /\ validate_fields E sch data = ([], out')
    /\ out = <[fname f := v]> out'.
Proof.
  cbn [validate_fields].
  destruct (validate_fields E sch data) as [errs out'].
  destruct (validate_field E f data) as [e|v]; [discriminate|].
  intros [= -> <-]. by exists v, out'.
Qed.

Lemma validate_fields_out E sch data out :
  validate_fields E sch data = ([], out) ->
  NoDup (declared sch) ->
  forall f, f ∈ sch ->
    exists v, out !! fname f = Some v /\ validate_field E f data = inr v.
Proof.
  revert out. induction sch as [|g sch IH]; intros out Hv Hnd f Hf.
  - by apply elem_of_nil in Hf.
  - apply validate_fields_nil_inv in Hv as (v & out' & Hg & Hrec & ->).
    cbn [declared map] in Hnd. apply NoDup_cons in Hnd as [Hng Hnd].
    apply elem_of_cons in Hf as [->|Hf].
    + exists v. by rewrite lookup_insert_eq.
    + destruct (IH _ Hrec Hnd f Hf) as (v' & Hl & Hf').
      exists v'. split; [|done].
      rewrite lookup_insert_ne; [done|].
      intros Heq. apply Hng. rewrite Heq.
      apply list_elem_of_fmap. by exists f.
Qed.

Lemma validate_fields_accepts E sch data :
  (forall f, f ∈ sch -> exists v, validate_field E f data = inr v) ->
  exists out, validate_fields E sch data = ([], out).
Proof.
  induction sch as [|g sch IH]; intros H; [by exists ∅|].
  destruct IH as [out Hout]; [intros f Hf; apply H; by right|].
  destruct (H g) as [v Hv]; [left|].
  exists (<[fname g := v]> out). cbn [validate_fields]. by rewrite Hout, Hv.
Qed.

Lemma validate_field_inl E f data e :
  validate_field E f data = inl e -> fst e = fname f /\ field_fails E f data.
Proof.
  unfold validate_field, field_fails.
  destruct (data !! fname f) as [v|];
    [destruct (coerce E (fty f) v)|destruct (fdefault f)];
    intros [= <-]; done.
Qed.

Lemma validate_field_inr E f data v :
  validate_field E f data = inr v -> ~ field_fails E f data.
Proof.
  unfold validate_field, field_fails.
  destruct (data !! fname f) as [v'|];
    [destruct (coerce E (fty f) v')|destruct (fdefault f)];
    intros [= <-]; done.
Qed.

Lemma validate_fields_names E sch data k :
  k ∈ map fst (fst (validate_fields E sch data))
  <-> exists f, f ∈ sch /\ fname f = k /\ field_fails E f data.
Proof.
  induction sch as [|g sch IH]; cbn [validate_fields].
  - cbn [fst map]. split; [intros H; by apply elem_of_nil in H|].
    intros (f & Hf & _). by apply elem_of_nil in Hf.
  - destruct (validate_fields E sch data) as [errs out]. cbn [fst] in IH.
    destruct (validate_field E g data) as [e|v] eqn:Hg; cbn [fst map].
    + apply validate_field_inl in Hg as [He Hg]. rewrite elem_of_cons, IH.
      split.
      * intros [->|(f & Hf & Hk & Hfail)]; [exists g|exists f];
          (split; [by constructor|done]).
      * intros (f & Hf & Hk & Hfail).
        apply elem_of_cons in Hf as [->|Hf]; [left; congruence|].
        right. by exists f.
    + apply validate_field_inr in Hg. rewrite IH. split.
      * intros (f & Hf & Hk & Hfail). exists f. split; [by right|done].
      * intros (f & Hf & Hk & Hfail).
        apply elem_of_cons in Hf as [->|Hf]; [done|]. by exists f.
Qed.

Lemma validate_fields_missing E sch data f :
  f ∈ sch -> data !! fname f = None -> fdefault f = None ->
  (fname f, "missing") ∈ fst (validate_fields E sch data).
Proof.
  intros Hf Hdata Hdef. induction sch as [|g sch IH];
    [by apply elem_of_nil in Hf|].
  cbn [validate_fields].
  destruct (validate_fields E sch data) as [errs out]. cbn [fst] in IH.
  apply elem_of_cons in Hf as [<-|Hf].
  - unfold validate_field. rewrite Hdata, Hdef. left.
  - destruct (validate_field E g data); cbn [fst]; [right|]; by apply IH.
Qed.

Ltac solve_stampable :=
  split; [unfold declared; cbn [map fname]; repeat constructor;
          (intros H; repeat (apply elem_of_cons in H as [H|H];
                             [discriminate|]); by apply elem_of_nil in H)|];
  split; [unfold declared; cbn [map fname];
          (intros H; repeat (apply elem_of_cons in H as [H|H];
                             [discriminate|]); by apply elem_of_nil in H)|];
  split; [unfold declared; cbn [map fname];
          (intros H; repeat (apply elem_of_cons in H as [H|H];
                             [discriminate|]); by apply elem_of_nil in H)|];
  repeat (apply Forall_cons; split;
          [cbn [fdefault fty required optional]; intros d [= <-]; reflexivity
           || (cbn [fdefault required]; intros d; discriminate)|]);
  apply Forall_nil_2.

Lemma schemas_stampable E c sch :
  schema_map !! c = Some sch -> stampable E sch.
Proof.
  unfold schema_map. intros H. apply elem_of_list_to_map_2 in H.
  repeat (apply elem_of_cons in H as [[= -> ->]|H];
          [unfold NewsArticle, Announcement, GalleryItem, AdmissionInfo,
             AcademicCalendarEvent, ScheduleEntry, OrgNode, Staff,
             Extracurricular, SchoolPage, Achievement; solve_stampable|]).
  by apply elem_of_nil in H.
Qed.

Lemma validate_field_typed E f data v :
  validate_field E f data = inr v ->
  (forall d, fdefault f = Some d -> coerce E (fty f) d = Some d) ->
  has_type (fty f) v = true.
Proof.
  unfold validate_field. intros Hv Hdef.
  destruct (data !! fname f) as [x|].
  - destruct (coerce E (fty f) x) as [v'|] eqn:Hc; [|discriminate].
    injection Hv as <-. by eapply coerce_has_type.
  - destruct (fdefault f) as [d|] eqn:Hd; [|discriminate].
    injection Hv as <-. eapply coerce_has_type. by apply Hdef.
Qed.

Lemma validate_field_again E f data v (stored : Dict) :
  idempotent (email_validator E) ->
  validate_field E f data = inr v ->
  (forall d, fdefault f = Some d -> coerce E (fty f) d = Some d) ->
  stored !! fname f = Some v ->
  validate_field E f stored = inr v.
Proof.
  unfold validate_field. intros Hid Hv Hdef ->.
  destruct (data !! fname f) as [x|].
  - destruct (coerce E (fty f) x) as [v'|] eqn:Hc; [|discriminate].
    injection Hv as <-. by rewrite (coerce_idempotent E _ Hid _ _ Hc).
  - destruct (fdefault f) as [d|] eqn:Hd; [|discriminate].
    injection Hv as <-. by rewrite (Hdef _ eq_refl).
Qed.

Lemma stamped_lookup (out : Dict) sch f crt upd :
  "created_at" ∉ declared sch -> "updated_at" ∉ declared sch -> f ∈ sch ->
  (<["updated_at" := upd]> (<["created_at" := crt]> out)) !! fname f
  = out !! fname f.
Proof.
  intros Hc Hu Hf.
  assert (fname f ∈ declared sch) as Hin
    by (apply list_elem_of_fmap; by exists f).
  rewrite !lookup_insert_ne; [done|..]; intros Heq; rewrite <- Heq in Hin; done.
Qed.

(** X11.  What create stores is typed.  The document a successful create
    appends has, for every field its schema declares, a value of the type
    of that field: a string of the allowed set for a closed enumeration, an
    integer for an integer field, null only where the field is optional;
    and it carries the two times of the call under [created_at] and
    [updated_at]. *)
Theorem create_stores_typed_fields E c sch data w id w' :
  schema_map !! c = Some sch ->
  create_item E c data w = (Return id, w') ->
  exists d,
    coll w' c = coll w c ++ [d]
    /\ id = str_of_ObjectId (doc_id d)
    /\ (forall c', c' <> c -> coll w' c' = coll w c')
    /\ doc_fields d !! "created_at" = Some (VTime (clock E (clock_reads w)))
    /\ doc_fields d !! "updated_at"
       = Some (VTime (clock E (S (clock_reads w))))
    /\ forall f, f ∈ sch ->
         exists v, doc_fields d !! fname f = Some v
                   /\ has_type (fty f) v = true.
Proof.
  intros Hsch. rewrite (create_item_run _ _ _ _ _ Hsch).
  destruct (schemas_stampable E _ _ Hsch) as (Hnd & Hc & Hu & Hdef).
  unfold model_validate.
  destruct (validate_fields E sch data) as [[|e errs] out] eqn:Hv;
    [|discriminate].
  cbv zeta. intros [= <- <-]. eexists. rewrite coll_set_coll_eq.
  split; [reflexivity|]. split; [done|].
  split; [intros c' Hc'; by rewrite coll_set_coll_ne|].
  cbn [doc_fields].
  split; [rewrite lookup_insert_ne by done; apply lookup_insert_eq|].
  split; [apply lookup_insert_eq|].
  intros f Hf. rewrite (stamped_lookup _ sch) by done.
  destruct (validate_fields_out _ _ _ _ Hv Hnd f Hf) as (v & Hl & Hfv).
  exists v. split; [done|]. eapply validate_field_typed; [exact Hfv|].
  rewrite Forall_forall in Hdef. by apply Hdef.
Qed.

(** X12.  What create stores validates.  When the address normaliser accepts
    its own output unchanged, the document a successful create appends
    validates against the schema of its collection. *)
Theorem create_stores_conforming E c sch data w id w' :
  idempotent (email_validator E) ->
  schema_map !! c = Some sch ->
  create_item E c data w = (Return id, w') ->
  exists d, coll w' c = coll w c ++ [d] /\ conforms E sch d = true.
Proof.
  intros Hid Hsch. rewrite (create_item_run _ _ _ _ _ Hsch).
  destruct (schemas_stampable E _ _ Hsch) as (Hnd & Hc & Hu & Hdef).
  unfold model_validate.
  destruct (validate_fields E sch data) as [[|e errs] out] eqn:Hv;
    [|discriminate].
  cbv zeta. intros [= <- <-]. eexists. rewrite coll_set_coll_eq.
  split; [reflexivity|]. unfold conforms, model_validate. cbn [doc_fields].
  edestruct (validate_fields_accepts E sch) as [out' ->]; [|done].
  intros f Hf.
  destruct (validate_fields_out _ _ _ _ Hv Hnd f Hf) as (v & Hl & Hfv).
  exists v. eapply validate_field_again; [done|exact Hfv| |].
  - rewrite Forall_forall in Hdef. by apply Hdef.
  - by rewrite (stamped_lookup _ sch).
Qed.

(** X13.  Create reports every offending field and stores nothing.  For a
    known collection, when some declared field fails on the payload, create
    is refused with a validation error and the world is left as it was; the
    fields the error names are exactly the declared fields that fail, and
    each required field that the payload lacks is reported as missing.
    When no declared field fails, create is not refused by validation. *)
Theorem create_reports_every_failing_field E c sch data w :
  schema_map !! c = Some sch ->
  ((exists f, f ∈ sch /\ field_fails E f data) ->
   exists errs,
     create_item E c data w = (Raise (ValidationError errs), w)
     /\ (forall k, k ∈ map fst errs
                   <-> exists f, f ∈ sch /\ fname f = k
                                 /\ field_fails E f data)
     /\ (forall f, f ∈ sch -> data !! fname f = None ->
           fdefault f = None -> (fname f, "missing") ∈ errs))
  /\ (~ (exists f, f ∈ sch /\ field_fails E f data) ->
      forall errs w',
        create_item E c data w <> (Raise (ValidationError errs), w')).
Proof.
  intros Hsch. rewrite (create_item_run _ _ _ _ _ Hsch).
  unfold model_validate.
  pose proof (validate_fields_names E sch data) as Hnames.
  pose proof (validate_fields_missing E sch data) as Hmiss.
  destruct (validate_fields E sch data) as [errs out].
  cbn [fst] in Hnames, Hmiss. split.
  - intros (f & Hf & Hfail). destruct errs as [|e errs].
    + assert (fname f ∈ map fst (@nil (string * string))) as Hin
        by (apply Hnames; by exists f).
      by apply elem_of_nil in Hin.
    + exists (e :: errs). split; [done|]. split; [exact Hnames|exact Hmiss].
  - intros Hnone errs' w'. destruct errs as [|e errs]; [done|].
    exfalso. apply Hnone.
    destruct (proj1 (Hnames (fst e))) as (f & Hf & _ & Hfail);
      [left|by exists f].
Qed.

(** ** Lists *)

Lemma insert_desc_perm k d l : insert_desc k d l ≡ₚ d :: l.
Proof.
  induction l as [|e l IH]; simpl; [done|].
  destruct (bson_lt _ _); [done|].
  rewrite IH. apply Permutation_swap.
Qed.

Lemma sort_desc_perm k l : sort_desc k l ≡ₚ l.
Proof.
  induction l as [|d l IH]; simpl; [done|].
  unfold sort_desc in *. simpl. by rewrite insert_desc_perm, IH.
Qed.

Lemma limit_to_length n l :
  n <> 0 -> length (limit_to n l) = Nat.min (Z.abs_nat n) (length l).
Proof.
  intros Hn. unfold limit_to.
  destruct (Z.eqb_spec n 0) as [|_]; [done|]. apply length_take.
Qed.

Lemma limit_to_sublist n l : limit_to n l `prefix_of` l.
Proof.
  unfold limit_to. destruct (n =? 0); [done|].
  exists (drop (Z.abs_nat n) l). by rewrite take_drop.
Qed.

(** X14.  The two list routes answer alike, never fail and never write.
    With limit 0 the answer holds every document of the collection, each
    once; with another limit it holds as many documents as the collection
    has, up to the size of the limit.  Every item listed is a stored
    document with its identifier in external form. *)
Theorem list_routes_answer_from_the_collection c limit e w :
  exists items,
    public_list c limit w = (Return items, w)
    /\ admin_list c e limit w = (Return items, w)
    /\ (limit = 0 -> items ≡ₚ map item_of (coll w c))
    /\ (limit <> 0 ->
        length items = Nat.min (Z.abs_nat limit) (length (coll w c)))
    /\ (forall it, it ∈ items ->
          exists d, d ∈ coll w c /\ it = item_of d
                    /\ it !! "_id" = Some (VStr (str_of_ObjectId (doc_id d)))).
Proof.
  eexists. split; [reflexivity|]. split; [reflexivity|].
  split; [|split].
  - intros ->. unfold limit_to. cbn. by rewrite sort_desc_perm.
  - intros Hn. rewrite length_map, limit_to_length by done.
    by rewrite (Permutation_length (sort_desc_perm _ _)).
  - intros it Hit. apply list_elem_of_fmap in Hit as (d & -> & Hd).
    exists d. split; [|split; [done|]].
    + destruct (limit_to_sublist limit (sort_desc "created_at" (coll w c)))
        as [rest Hrest].
      rewrite <- (sort_desc_perm "created_at" (coll w c)), Hrest.
      apply elem_of_app. by left.
    + unfold item_of. apply lookup_insert_eq.
Qed.

Lemma sort_key_time k d t :
  doc_fields d !! k = Some (VTime t) -> sort_key k d = VTime t.
Proof. intros H. unfold sort_key. by rewrite H. Qed.

Lemma insert_desc_sorted (time : Doc -> Z) d l :
  (forall x, x ∈ d :: l -> sort_key "created_at" x = VTime (time x)) ->
  StronglySorted (fun a b => time b <= time a) l ->
  StronglySorted (fun a b => time b <= time a) (insert_desc "created_at" d l).
Proof.
  intros Hkey Hs. induction Hs as [|e l Hs IH Hall]; simpl.
  - repeat constructor.
  - rewrite (Hkey e), (Hkey d) by (repeat constructor). cbn [bson_lt].
    destruct (Z.ltb_spec (time e) (time d)) as [Hlt|Hge].
    + constructor; [by constructor|].
      constructor; [lia|].
      eapply Forall_impl; [exact Hall|]. intros x Hx. simpl in Hx. lia.
    + constructor.
      * apply IH. intros x Hx. apply Hkey.
        apply elem_of_cons in Hx as [->|Hx]; [left|right; by right].
      * rewrite (insert_desc_perm "created_at" d l). by constructor.
Qed.

Lemma sort_desc_sorted (time : Doc -> Z) l :
  (forall x, x ∈ l -> sort_key "created_at" x = VTime (time x)) ->
  StronglySorted (fun a b => time b <= time a) (sort_desc "created_at" l).
Proof.
  induction l as [|d l IH]; intros Hkey; [constructor|].
  unfold sort_desc in *. simpl. apply insert_desc_sorted.
  - intros x Hx. apply Hkey.
    apply elem_of_cons in Hx as [->|Hx]; [left|right].
    by rewrite <- (sort_desc_perm "created_at" l).
  - apply IH. intros x Hx. apply Hkey. by right.
Qed.

Lemma StronglySorted_prefix {A} (R : A -> A -> Prop) (l1 l2 : list A) :
  StronglySorted R (l1 ++ l2) -> StronglySorted R l1.
Proof.
  induction l1 as [|x l1 IH]; simpl; [constructor|].
  intros Hs. apply StronglySorted_inv in Hs as [Hs Hall].
  constructor; [by apply IH|].
  apply Forall_app in Hall. by destruct Hall.
Qed.

Lemma StronglySorted_map {A B} (R : A -> A -> Prop) (S : B -> B -> Prop)
    (f : A -> B) l :
  (forall a b, a ∈ l -> b ∈ l -> R a b -> S (f a) (f b)) ->
  StronglySorted R l -> StronglySorted S (map f l).
Proof.
  intros Hf Hs. induction Hs as [|x l Hs IH Hall]; simpl; [constructor|].
  constructor.
  - apply IH. intros a b Ha Hb. apply Hf; by right.
  - apply Forall_fmap. rewrite Forall_forall in Hall |- *.
    intros y Hy. apply Hf; [left|by right|by apply Hall].
Qed.

(** X15.  Lists are newest first.  When every document of the collection
    carries a time under [created_at], as the documents that create, login
    and a first page write store do, the items of either list route are in
    the order of that time, latest first, whatever the limit. *)
Theorem list_is_newest_first c limit w :
  Forall (fun d => is_Some (created_time (doc_fields d))) (coll w c) ->
  exists items,
    public_list c limit w = (Return items, w)
    /\ StronglySorted not_older items.
Proof.
  intros Hst. eexists. split; [reflexivity|].
  set (time := fun d : Doc => default 0 (created_time (doc_fields d))).
  assert (Hkey : forall x, x ∈ coll w c ->
            sort_key "created_at" x = VTime (time x)).
  { intros x Hx. rewrite Forall_forall in Hst.
    destruct (Hst x Hx) as [t Ht]. unfold time. rewrite Ht.
    unfold created_time in Ht. apply sort_key_time.
    destruct (doc_fields x !! "created_at") as [[]|]; try discriminate.
    by injection Ht as ->. }
  pose proof (sort_desc_sorted time _ Hkey) as Hsorted.
  destruct (limit_to_sublist limit (sort_desc "created_at" (coll w c)))
    as [rest Hrest].
  rewrite Hrest in Hsorted. apply StronglySorted_prefix in Hsorted.
  assert (Hin : forall a, a ∈ limit_to limit (sort_desc "created_at" (coll w c))
                 -> a ∈ coll w c).
  { intros a Ha. rewrite <- (sort_desc_perm "created_at" (coll w c)), Hrest.
    apply elem_of_app. by left. }
  eapply StronglySorted_map; [|exact Hsorted].
  intros a b Ha%Hin Hb%Hin Hab.
  rewrite Forall_forall in Hst.
  destruct (Hst a Ha) as [ta Hta], (Hst b Hb) as [tb Htb].
  exists ta, tb. unfold time in Hab. rewrite Hta, Htb in Hab. simpl in Hab.
  assert (Hitem : forall d, created_time (item_of d)
                            = created_time (doc_fields d)).
  { intros d. unfold created_time, item_of. by rewrite lookup_insert_ne. }
  by rewrite !Hitem.
Qed.

(** ** Identifiers of created documents *)

Lemma ObjectId_round_trip (o : ObjectId) :
  length o = 12%nat -> ObjectId_of_str (str_of_ObjectId o) = Some o.
Proof.
  intros Hlen. unfold ObjectId_of_str, str_of_ObjectId.
  rewrite hex_length, Hlen. cbn [Nat.mul Nat.add Nat.eqb]. apply fromhex_hex.
Qed.

(** X16.  The identifier create answers with names the document created.
    When the store hands out identifiers of twelve bytes, the string that a
    successful create returns decodes to the identifier of the appended
    document, an update and a delete through that string answer with
    success, and, unless an older document of the collection carries the
    same identifier, the update lands on the created document. *)
Theorem created_identifier_reaches_document E c sch data w id w' :
  schema_map !! c = Some sch ->
  length (oid_supply E (oids_issued w)) = 12%nat ->
  create_item E c data w = (Return id, w') ->
  exists d,
    coll w' c = coll w c ++ [d]
    /\ obj_id id w' = (Return (doc_id d), w')
    /\ (forall patch e, fst (admin_update E c id patch e w') = Return "updated")
    /\ (forall e, fst (admin_delete c id e w') = Return "deleted")
    /\ (Forall (fun x => doc_id x <> doc_id d) (coll w c) ->
        forall patch e,
          coll (snd (admin_update E c id patch e w')) c
          = coll w c ++
            [mkDoc (doc_id d)
               (<["updated_at" := VTime (clock E (clock_reads w'))]> patch
                ∪ doc_fields d)]).
Proof.
  intros Hsch Hlen. rewrite (create_item_run _ _ _ _ _ Hsch).
  destruct (model_validate E sch data) as [errs|doc]; [discriminate|].
  cbv zeta. intros [= <- <-]. set (o := oid_supply E (oids_issued w)).
  set (d := mkDoc o _). exists d. rewrite coll_set_coll_eq.
  pose proof (ObjectId_round_trip o Hlen) as Hdec.
  assert (Hmd : matches [IdIs o] d = true)
    by (rewrite matches_id; by apply bool_decide_eq_true_2).
  assert (Hex : existsb (matches [IdIs o]) (coll w c ++ [d]) = true).
  { apply existsb_exists. exists d. split; [|done].
    apply in_or_app. right. by left. }
  split; [done|]. split; [unfold obj_id; by rewrite Hdec|].
  split; [|split].
  - intros patch e. rewrite (admin_update_run _ _ _ _ _ _ _ Hdec). cbv zeta.
    by rewrite coll_set_coll_eq, Hex.
  - intros e. rewrite (admin_delete_run _ _ _ _ _ Hdec).
    by rewrite coll_set_coll_eq, Hex.
  - intros Hfresh patch e. rewrite (admin_update_run _ _ _ _ _ _ _ Hdec).
    cbv zeta. rewrite coll_set_coll_eq, Hex. cbn [snd].
    rewrite coll_set_coll_eq.
    rewrite <- (app_nil_r (coll w c ++ [d])), <- app_assoc.
    cbn [app]. rewrite update_first_split; [done| |done].
    by apply Forall_no_id.
Qed.

(** ** The health route *)

(** X17.  The health route never fails and reports from what it reads.  It
    says connected exactly when the process has a store handle, and working
    exactly when listing the collections succeeded; it shows at most the
    first twenty collection names; and the two configuration fields depend
    on the environment variables alone: what the route first wrote there
    from the handle is always overwritten. *)
Theorem test_database_report db getenv :
  let r := test_database db getenv in
  (connection_status r = "Connected" <-> db <> None)
  /\ (database r = "✅ Connected & Working" <->
      exists h names, db = Some h /\ list_collection_names h = inr names)
  /\ (length (collections r) <= 20)%nat
  /\ (forall h names, db = Some h -> list_collection_names h = inr names ->
        collections r = take 20 names)
  /\ ((forall h names, db = Some h -> list_collection_names h <> inr names) ->
      collections r = [])
  /\ database_url r
     = Some (if Str.truthy (getenv "DATABASE_URL")
             then "✅ Set" else "❌ Not Set")
  /\ database_name r
     = Some (if Str.truthy (getenv "DATABASE_NAME")
             then "✅ Set" else "❌ Not Set")
  /\ forall db',
       database_url (test_database db' getenv) = database_url r
       /\ database_name (test_database db' getenv) = database_name r.
Proof.
  cbv zeta. unfold test_database.
  destruct db as [[name [msg|names]]|]; cbn -[String.substring take].
  - split; [split; done|]. split.
    { split; [discriminate|]. intros (h & ns & [= <-] & Hl). discriminate. }
    split; [lia|]. split; [intros h ns [= <-]; discriminate|].
    split; [done|]. split; [done|]. split; [done|]. intros db'. split; done.
  - split; [split; done|]. split; [split; eauto|].
    split; [rewrite length_take; lia|].
    split; [by intros h ns [= <-] [= <-]|].
    split; [intros H; by destruct (H _ names eq_refl)|].
    split; [done|]. split; [done|]. intros db'. split; done.
  - split; [split; [discriminate|done]|]. split.
    { split; [discriminate|]. intros (h & ns & [=] & _). }
    split; [lia|]. split; [intros h ns [=]|].
    split; [done|]. split; [done|]. split; [done|]. intros db'. split; done.
Qed.

(** ** Create, then list *)

Lemma schemas_without_id c sch :
  schema_map !! c = Some sch -> "_id" ∉ declared sch.
Proof.
  unfold schema_map. intros H. apply elem_of_list_to_map_2 in H.
  repeat (apply elem_of_cons in H as [[= -> ->]|H];
          [unfold declared; cbn [map fname];
           (intros Hin; repeat (apply elem_of_cons in Hin as [Hin|Hin];
                                [discriminate|]); by apply elem_of_nil in Hin)|]).
  by apply elem_of_nil in H.
Qed.

Lemma limit_to_all n (l : list Doc) :
  n = 0 \/ (length l <= Z.abs_nat n)%nat -> limit_to n l = l.
Proof.
  intros Hn. unfold limit_to. destruct (Z.eqb_spec n 0) as [|Hne]; [done|].
  destruct Hn as [|Hlen]; [done|]. by apply take_ge.
Qed.

(** X18.  What create stores can be listed.  After a successful create, a
    list of the collection with limit 0, or with a limit that the
    collection does not exceed, holds an item with the returned identifier
    under ["_id"], the value validation gave to each declared field, and
    the two times of the call. *)
Theorem create_then_list E c sch data w id w' limit :
  schema_map !! c = Some sch ->
  create_item E c data w = (Return id, w') ->
  limit = 0 \/ (length (coll w' c) <= Z.abs_nat limit)%nat ->
  exists items item,
    public_list c limit w' = (Return items, w')
    /\ item ∈ items
    /\ item !! "_id" = Some (VStr id)
    /\ item !! "created_at" = Some (VTime (clock E (clock_reads w)))
    /\ item !! "updated_at" = Some (VTime (clock E (S (clock_reads w))))
    /\ forall f v, f ∈ sch -> validate_field E f data = inr v ->
         item !! fname f = Some v.
Proof.
  intros Hsch Hrun Hlimit.
  pose proof (schemas_without_id _ _ Hsch) as Hnoid.
  destruct (schemas_stampable E _ _ Hsch) as (Hnd & Hc & Hu & _).
  rewrite (create_item_run _ _ _ _ _ Hsch) in Hrun.
  unfold model_validate in Hrun.
  destruct (validate_fields E sch data) as [[|e errs] out] eqn:Hv;
    [|discriminate].
  cbv zeta in Hrun. injection Hrun as <- <-.
  set (d := mkDoc _ _). set (w' := set_coll _ _ _) in *.
  assert (Hd : d ∈ coll w' c).
  { unfold w'. rewrite coll_set_coll_eq. apply elem_of_app. right. left. }
  eexists _, (item_of d). split; [reflexivity|].
  split.
  - apply list_elem_of_fmap. exists d. split; [done|].
    rewrite limit_to_all
      by (by rewrite (Permutation_length (sort_desc_perm _ _))).
    by rewrite sort_desc_perm.
  - unfold item_of, d. cbn [doc_id doc_fields].
    split; [apply lookup_insert_eq|].
    split; [rewrite !lookup_insert_ne by done; apply lookup_insert_eq|].
    split; [rewrite lookup_insert_ne by done; apply lookup_insert_eq|].
    intros f v Hf Hfv.
    assert (fname f ∈ declared sch) as Hin
      by (apply list_elem_of_fmap; by exists f).
    rewrite lookup_insert_ne by (intros Heq; rewrite <- Heq in Hin; done).
    rewrite (stamped_lookup _ sch) by done.
    destruct (validate_fields_out _ _ _ _ Hv Hnd f Hf) as (v' & Hl & Hfv').
    congruence.
Qed.

(** ** Two logins *)

Lemma hex_injective a b : Str.hex a = Str.hex b -> a = b.
Proof.
  intros H. apply (f_equal Str.fromhex) in H.
  rewrite !fromhex_hex in H. by injection H.
Qed.

Lemma login_world_counters E e w :
  Str.lower e = MASTER_ADMIN_EMAIL ->
  entropy_used (snd (login E e w)) = (entropy_used w + 24)%nat
  /\ coll (snd (login E e w)) "session"
     = coll w "session" ++ [login_session E w].
Proof.
  intros Hm. rewrite (login_run _ _ _ Hm). cbv zeta. cbn [snd].
  by rewrite coll_set_coll_eq.
Qed.

Lemma guard_accepts_first t (l1 l2 : list Doc) s w e :
  t <> EmptyString ->
  coll w "session" = l1 ++ s :: l2 ->
  Forall (fun x => has_token t x = false) l1 ->
  active_for t s -> doc_fields s !! "email" = Some e ->
  ensure_admin (Some t) w = (Return e, w).
Proof.
  intros Hne Hc Hl1 Hact Hmail.
  rewrite ensure_admin_run.
  assert (Str.truthy (Some t) = true) as -> by (apply truthy_Some; eauto).
  cbn [negb]. change (default EmptyString (Some t)) with t. rewrite Hc.
  assert (List.find
            (matches [FieldIs "token" (VStr t); FieldIs "active" (VBool true)])
            (l1 ++ s :: l2) = Some s) as ->; [|by rewrite Hmail].
  clear Hc. induction Hl1 as [|x l1 Hx _ IH]; cbn [app List.find].
  - by rewrite (proj2 (matches_active t s) Hact).
  - destruct (matches _ x) eqn:Hm; [|done].
    apply guard_filter_token in Hm. congruence.
Qed.

Lemma guard_refuses_all t (l : list Doc) w :
  t <> EmptyString ->
  coll w "session" = l ->
  Forall (fun x => ~ active_for t x) l ->
  ensure_admin (Some t) w
  = (Raise (HTTPException 401 "Invalid or expired token"), w).
Proof.
  intros Hne Hc Hl. rewrite ensure_admin_run.
  assert (Str.truthy (Some t) = true) as -> by (apply truthy_Some; eauto).
  cbn [negb]. change (default EmptyString (Some t)) with t. rewrite Hc.
  rewrite find_Forall_none; [done|].
  eapply Forall_impl; [exact Hl|]. intros x Hx.
  destruct (matches _ x) eqn:Hm; [|done].
  apply matches_active in Hm. by destruct Hx.
Qed.

Lemma logout_sessions_run E t w l1 s l2 :
  t <> EmptyString ->
  coll w "session" = l1 ++ s :: l2 ->
  has_token t s = true ->
  Forall (fun x => has_token t x = false) l1 ->
  coll (snd (logout E (Some t) w)) "session"
  = l1 ++ apply_set (logout_patch E w) s :: l2.
Proof.
  intros Hne Hc Hs Hl1. rewrite logout_run.
  assert (Str.truthy (Some t) = true) as -> by (apply truthy_Some; eauto).
  cbn [negb snd].
  rewrite (existsb_pred_ext _ _ _ (token_filter_has_token t)).
  rewrite (update_first_ext _ _ _ _ (token_filter_has_token t)).
  assert (existsb (has_token t) (coll w "session") = true) as ->.
  { rewrite Hc. apply existsb_exists. exists s. split; [|done].
    apply in_or_app. right. by left. }
  rewrite coll_set_coll_eq, Hc. by apply update_first_split.
Qed.

Lemma login_token_nonempty E w : login_token E w <> EmptyString.
Proof.
  destruct (login_token_shape E w) as (Hlen & _). intros H.
  by rewrite H in Hlen.
Qed.

(** X19.  Two logins give two sessions that live apart.  When the two draws
    of entropy differ and no stored session carries either token, two
    logins of the master address answer with two different tokens, the
    guard accepts both, and after a logout with the first the guard refuses
    the first and still accepts the second. *)
Theorem two_logins_two_sessions E e w :
  Str.lower e = MASTER_ADMIN_EMAIL ->
  let w1 := snd (login E e w) in
  let w2 := snd (login E e w1) in
  let t1 := login_token E w in
  let t2 := login_token E w1 in
  let w3 := snd (logout E (Some t1) w2) in
  map (entropy E) (seq (entropy_used w) 24)
    <> map (entropy E) (seq (entropy_used w + 24) 24) ->
  Forall (fun x => has_token t1 x = false /\ has_token t2 x = false)
    (coll w "session") ->
  t1 <> t2
  /\ ensure_admin (Some t1) w2 = (Return (VStr MASTER_ADMIN_EMAIL), w2)
  /\ ensure_admin (Some t2) w2 = (Return (VStr MASTER_ADMIN_EMAIL), w2)
  /\ ensure_admin (Some t1) w3
     = (Raise (HTTPException 401 "Invalid or expired token"), w3)
  /\ ensure_admin (Some t2) w3 = (Return (VStr MASTER_ADMIN_EMAIL), w3).
Proof.
  intros Hm. cbv zeta. intros Hent Hfresh.
  destruct (login_world_counters E e w Hm) as [Hused Hs1].
  destruct (login_world_counters E e (snd (login E e w)) Hm) as [_ Hs2].
  set (w1 := snd (login E e w)) in *. set (w2 := snd (login E e w1)) in *.
  set (t1 := login_token E w) in *. set (t2 := login_token E w1) in *.
  set (s1 := login_session E w) in *. set (s2 := login_session E w1) in *.
  rewrite Hs1 in Hs2.
  assert (Hne : t1 <> t2).
  { unfold t1, t2, login_token. rewrite Hused. intros H.
    by apply hex_injective in H. }
  destruct (login_session_fields E w) as (Hm1 & Ht1 & Ha1).
  destruct (login_session_fields E w1) as (Hm2 & Ht2 & Ha2).
  fold s1 t1 in Hm1, Ht1, Ha1. fold s2 t2 in Hm2, Ht2, Ha2.
  assert (Hold1 : Forall (fun x => has_token t1 x = false) (coll w "session"))
    by (eapply Forall_impl; [exact Hfresh|]; by intros x [? ?]).
  assert (Hold2 : Forall (fun x => has_token t2 x = false) (coll w "session"))
    by (eapply Forall_impl; [exact Hfresh|]; by intros x [? ?]).
  assert (Hs1t2 : has_token t2 s1 = false).
  { destruct (has_token t2 s1) eqn:H; [|done].
    apply has_token_iff in H. congruence. }
  assert (Hs2t1 : has_token t1 s2 = false).
  { destruct (has_token t1 s2) eqn:H; [|done].
    apply has_token_iff in H. congruence. }
  assert (Hn1 : t1 <> EmptyString) by apply login_token_nonempty.
  assert (Hn2 : t2 <> EmptyString) by apply login_token_nonempty.
  split; [done|]. split; [|split; [|split]].
  - apply (guard_accepts_first t1 (coll w "session") [s2] s1);
      [exact Hn1| |exact Hold1|split; [exact Ht1|exact Ha1]|exact Hm1].
    by rewrite Hs2, <- app_assoc.
  - apply (guard_accepts_first t2 (coll w "session" ++ [s1]) [] s2);
      [exact Hn2|exact Hs2| |split; [exact Ht2|exact Ha2]|exact Hm2].
    apply Forall_app. split; [exact Hold2|].
    constructor; [exact Hs1t2|constructor].
  - eapply guard_refuses_all; [exact Hn1| |].
    + apply (logout_sessions_run E t1 w2 (coll w "session") s1 [s2]);
        [exact Hn1|by rewrite Hs2, <- app_assoc
        |apply has_token_iff; exact Ht1|exact Hold1].
    + apply Forall_app. split; [|constructor; [|constructor; [|constructor]]].
      * eapply Forall_impl; [exact Hold1|]. intros x Hx [Htok _].
        apply has_token_iff in Htok. congruence.
      * intros [_ Hact]. unfold apply_set in Hact. cbn [doc_fields] in Hact.
        rewrite (lookup_union_Some_l _ _ _ (VBool false)) in Hact;
          [discriminate|]. by rewrite logout_patch_lookup.
      * intros [Htok _]. apply has_token_iff in Htok. congruence.
  - apply (guard_accepts_first t2
             (coll w "session" ++ [apply_set (logout_patch E w2) s1]) [] s2);
      [exact Hn2| | |split; [exact Ht2|exact Ha2]|exact Hm2].
    + rewrite (logout_sessions_run E t1 w2 (coll w "session") s1 [s2]);
        [by rewrite <- app_assoc|exact Hn1|by rewrite Hs2, <- app_assoc
        |apply has_token_iff; exact Ht1|exact Hold1].
    + apply Forall_app. split; [exact Hold2|]. constructor; [|constructor].
      apply not_true_is_false. intros H.
      apply has_token_iff in H. unfold apply_set in H. cbn [doc_fields] in H.
      rewrite lookup_union_r in H
        by (rewrite logout_patch_lookup; by repeat case_decide).
      congruence.
Qed.

(** ** The further properties at concrete inputs *)

Lemma get_page_soft_default_witness :
  pages_with_key "kontak_alamat" empty_world = 0%nat
  /\ exists item,
       fst (get_page "kontak_alamat" empty_world) = Return item
       /\ item !! "key" = Some (VStr "kontak_alamat")
       /\ item !! "title" = Some (VStr EmptyString).
Proof.
  assert (H : pages_with_key "kontak_alamat" empty_world = 0%nat)
    by reflexivity.
  split; [exact H|].
  destruct (proj1 (proj2 (get_page_soft_default "kontak_alamat" empty_world)) H)
    as (item & Hrun & Hkey & Htitle & _).
  exists item. split; [exact Hrun|]. split; [exact Hkey|exact Htitle].
Defined.

Lemma set_page_then_get_page_witness :
  let data : Dict := {["title" := VStr "A"]} in
  let write := set_page demo_env "sejarah" data VNull w_login in
  fst write = Return "saved"
  /\ exists item,
       get_page "sejarah" (snd write) = (Return item, snd write)
       /\ item !! "title" = Some (VStr "A").
Proof.
  cbv zeta.
  assert (H : fst (set_page demo_env "sejarah" {["title" := VStr "A"]} VNull
                     w_login) = Return "saved") by (vm_compute; reflexivity).
  split; [exact H|].
  destruct (set_page_then_get_page demo_env "sejarah" {["title" := VStr "A"]}
              VNull w_login "saved" H) as (item & Hrun & _ & _ & _ & Hdata).
  exists item. split; [exact Hrun|].
  apply Hdata; [apply lookup_singleton_eq|discriminate..].
Defined.

Lemma delete_removes_document_witness :
  let d := default (mkDoc [] ∅) (head (coll w_article "newsarticle")) in
  ObjectId_of_str demo_article_id = Some (doc_id d)
  /\ coll w_article "newsarticle" = [] ++ d :: []
  /\ exists w',
       admin_delete "newsarticle" demo_article_id VNull w_article
       = (Return "deleted", w')
       /\ coll w' "newsarticle" = [] ++ [].
Proof.
  cbv zeta.
  set (d := default (mkDoc [] ∅) (head (coll w_article "newsarticle"))).
  assert (H1 : ObjectId_of_str demo_article_id = Some (doc_id d))
    by (vm_compute; reflexivity).
  assert (H2 : coll w_article "newsarticle" = [] ++ d :: [])
    by (vm_compute; reflexivity).
  split; [exact H1|]. split; [exact H2|].
  destruct (delete_removes_document demo_env "newsarticle" demo_article_id
              VNull w_article (doc_id d) [] d [] H1 H2 eq_refl
              (List.Forall_nil _)) as (w' & Hrun & Hcoll & _).
  exists w'. split; [exact Hrun|exact Hcoll].
Defined.

Lemma store_changes_need_authority_witness :
  db (serve demo_env (Login "caproktaroy03@gmail.com") empty_world)
    <> db empty_world
  /\ entitled (Login "caproktaroy03@gmail.com") empty_world.
Proof.
  assert (H : db (serve demo_env (Login "caproktaroy03@gmail.com") empty_world)
              <> db empty_world).
  { intros H.
    apply (f_equal (fun m : gmap string (list Doc) =>
                      length (default [] (m !! "session")))) in H.
    vm_compute in H. discriminate. }
  split; [exact H|].
  exact (store_changes_need_authority demo_env _ empty_world H).
Defined.

Lemma in_place_requests_keep_identifiers_witness :
  in_place (Logout (Some demo_token)) = true
  /\ ids (serve demo_env (Logout (Some demo_token)) w_login) "session"
     = ids w_login "session".
Proof.
  split; [reflexivity|].
  exact (in_place_requests_keep_identifiers demo_env
           (Logout (Some demo_token)) w_login "session" eq_refl).
Defined.

Lemma login_token_passes_guard_witness :
  let e := "caproktaroy03@gmail.com" in
  let w' := snd (login demo_env e empty_world) in
  Str.lower e = MASTER_ADMIN_EMAIL
  /\ Forall (fun s => ~ active_for (login_token demo_env empty_world) s)
       (coll empty_world "session")
  /\ ensure_admin (Some (login_token demo_env empty_world)) w'
     = (Return (VStr MASTER_ADMIN_EMAIL), w').
Proof.
  cbv zeta.
  assert (H1 : Str.lower "caproktaroy03@gmail.com" = MASTER_ADMIN_EMAIL)
    by reflexivity.
  assert (H2 : Forall
                 (fun s => ~ active_for (login_token demo_env empty_world) s)
                 (coll empty_world "session")).
  { assert (coll empty_world "session" = []) as -> by reflexivity.
    constructor. }
  split; [exact H1|]. split; [exact H2|].
  exact (proj2 (proj2 (proj2
           (login_token_passes_guard demo_env _ empty_world H1 H2)))).
Defined.

Lemma login_keeps_other_sessions_witness :
  let later := snd (login demo_env "caproktaroy03@gmail.com" w_login) in
  demo_token <> login_token demo_env w_login
  /\ fst (ensure_admin (Some demo_token) later)
     = fst (ensure_admin (Some demo_token) w_login).
Proof.
  cbv zeta.
  assert (H : demo_token <> login_token demo_env w_login)
    by (intros H; vm_compute in H; discriminate).
  split; [exact H|].
  exact (proj2 (login_keeps_other_sessions demo_env
                  "caproktaroy03@gmail.com" w_login demo_token H)).
Defined.

Lemma logout_revokes_token_witness :
  let s := default (mkDoc [] ∅) (head (coll w_login "session")) in
  let w' := snd (logout demo_env (Some demo_token) w_login) in
  demo_token <> EmptyString
  /\ coll w_login "session" = [] ++ s :: []
  /\ has_token demo_token s = true
  /\ ensure_admin (Some demo_token) w'
     = (Raise (HTTPException 401 "Invalid or expired token"), w').
Proof.
  cbv zeta.
  set (s := default (mkDoc [] ∅) (head (coll w_login "session"))).
  assert (H1 : demo_token <> EmptyString) by discriminate.
  assert (H2 : coll w_login "session" = [] ++ s :: [])
    by (vm_compute; reflexivity).
  assert (H3 : has_token demo_token s = true) by (vm_compute; reflexivity).
  split; [exact H1|]. split; [exact H2|]. split; [exact H3|].
  exact (proj1 (proj2 (logout_revokes_token demo_env demo_token w_login
                         [] s [] H1 H2 H3 (List.Forall_nil _)))).
Defined.

Lemma login_upserts_master_user_witness :
  let e := "caproktaroy03@gmail.com" in
  Str.lower e = MASTER_ADMIN_EMAIL
  /\ master_users w_login = 1%nat
  /\ master_users (snd (login demo_env e w_login))
     = Nat.max 1 (master_users w_login).
Proof.
  cbv zeta.
  assert (H : Str.lower "caproktaroy03@gmail.com" = MASTER_ADMIN_EMAIL)
    by reflexivity.
  split; [exact H|]. split; [vm_compute; reflexivity|].
  exact (proj1 (login_upserts_master_user demo_env _ w_login H)).
Defined.

Lemma only_login_adds_sessions_witness :
  let r := Login "caproktaroy03@gmail.com" in
  (length (coll empty_world "session")
   < length (coll (serve demo_env r empty_world) "session"))%nat
  /\ exists e, r = Login e /\ Str.lower e = MASTER_ADMIN_EMAIL.
Proof.
  cbv zeta.
  assert (H : (length (coll empty_world "session")
               < length (coll (serve demo_env
                                 (Login "caproktaroy03@gmail.com")
                                 empty_world) "session"))%nat)
    by (vm_compute; constructor).
  split; [exact H|].
  destruct (only_login_adds_sessions demo_env _ empty_world H)
    as (e & Hr & Hm & _).
  exists e. split; [exact Hr|exact Hm].
Defined.

Lemma create_stores_typed_fields_witness :
  let result := create_item demo_env "newsarticle" demo_article w_login in
  schema_map !! "newsarticle" = Some NewsArticle
  /\ result = (Return demo_article_id, snd result)
  /\ exists d,
       coll (snd result) "newsarticle" = coll w_login "newsarticle" ++ [d]
       /\ doc_fields d !! "created_at" = Some (VTime 4).
Proof.
  cbv zeta.
  assert (H : create_item demo_env "newsarticle" demo_article w_login
              = (Return demo_article_id,
                 snd (create_item demo_env "newsarticle" demo_article w_login)))
    by (vm_compute; reflexivity).
  split; [reflexivity|]. split; [exact H|].
  destruct (create_stores_typed_fields demo_env "newsarticle" NewsArticle
              demo_article w_login demo_article_id _ eq_refl H)
    as (d & Hcoll & _ & _ & Hcrt & _).
  exists d. split; [exact Hcoll|exact Hcrt].
Defined.

Lemma create_stores_conforming_witness :
  let result := create_item demo_env "newsarticle" demo_article w_login in
  idempotent (email_validator demo_env)
  /\ schema_map !! "newsarticle" = Some NewsArticle
  /\ result = (Return demo_article_id, snd result)
  /\ exists d,
       coll (snd result) "newsarticle" = coll w_login "newsarticle" ++ [d]
       /\ conforms demo_env NewsArticle d = true.
Proof.
  cbv zeta.
  assert (Hid : idempotent (email_validator demo_env)).
  { intros s s' H. simpl in *. by injection H as ->. }
  assert (H : create_item demo_env "newsarticle" demo_article w_login
              = (Return demo_article_id,
                 snd (create_item demo_env "newsarticle" demo_article w_login)))
    by (vm_compute; reflexivity).
  split; [exact Hid|]. split; [reflexivity|]. split; [exact H|].
  exact (create_stores_conforming demo_env "newsarticle" NewsArticle
           demo_article w_login demo_article_id _ Hid eq_refl H).
Defined.

Lemma create_reports_every_failing_field_witness :
  let data : Dict :=
    list_to_map [("title", VStr "Upacara");
                 ("tags", VList [VInt 1; VInt 2])] in
  schema_map !! "newsarticle" = Some NewsArticle
  /\ (exists f, f ∈ NewsArticle /\ field_fails demo_env f data)
  /\ exists errs,
       create_item demo_env "newsarticle" data w_login
       = (Raise (ValidationError errs), w_login)
       /\ ("content" ∈ map fst errs)
       /\ ("tags" ∈ map fst errs)
       /\ ("title" ∉ map fst errs)
       /\ (("content", "missing") ∈ errs).
Proof.
  cbv zeta.
  set (data := list_to_map [("title", VStr "Upacara");
                            ("tags", VList [VInt 1; VInt 2])] : Dict).
  assert (Hcontent : required "content" TStr ∈ NewsArticle)
    by (right; left).
  assert (Htags : optional "tags" (TList TStr) ∈ NewsArticle)
    by (unfold NewsArticle; repeat first [left | right]).
  assert (Hfail : exists f, f ∈ NewsArticle /\ field_fails demo_env f data).
  { exists (required "content" TStr). split; [exact Hcontent|reflexivity]. }
  split; [reflexivity|]. split; [exact Hfail|].
  destruct (proj1 (create_reports_every_failing_field demo_env "newsarticle"
                     NewsArticle data w_login eq_refl) Hfail)
    as (errs & Hrun & Hnames & Hmiss).
  exists errs. split; [exact Hrun|].
  split; [apply Hnames; exists (required "content" TStr);
          split; [exact Hcontent|split; reflexivity]|].
  split; [apply Hnames; exists (optional "tags" (TList TStr));
          split; [exact Htags|split; reflexivity]|].
  split.
  - intros Hin. apply Hnames in Hin as (f & Hf & Hk & Hf').
    unfold NewsArticle in Hf.
    repeat (apply elem_of_cons in Hf as [->|Hf];
            [first [ by (cbn in Hk; discriminate Hk)
                   | by (vm_compute in Hf'; discriminate Hf') ]|]).
    by apply elem_of_nil in Hf.
  - exact (Hmiss (required "content" TStr) Hcontent eq_refl eq_refl).
Defined.

Lemma list_routes_answer_from_the_collection_witness :
  exists items,
    public_list "newsarticle" 0 w_article = (Return items, w_article)
    /\ items ≡ₚ map item_of (coll w_article "newsarticle").
Proof.
  destruct (list_routes_answer_from_the_collection "newsarticle" 0 VNull
              w_article) as (items & Hrun & _ & Hall & _).
  exists items. split; [exact Hrun|exact (Hall eq_refl)].
Defined.

Lemma list_is_newest_first_witness :
  Forall (fun d => is_Some (created_time (doc_fields d)))
    (coll w_two_articles "newsarticle")
  /\ map (fun d => created_time (doc_fields d))
       (coll w_two_articles "newsarticle") = [Some 4; Some 6]
  /\ exists items,
       public_list "newsarticle" 50 w_two_articles
       = (Return items, w_two_articles)
       /\ map created_time items = [Some 6; Some 4]
       /\ StronglySorted not_older items.
Proof.
  set (d1 := default (mkDoc [] ∅)
               (coll w_two_articles "newsarticle" !! 0%nat)).
  set (d2 := default (mkDoc [] ∅)
               (coll w_two_articles "newsarticle" !! 1%nat)).
  assert (Hc : coll w_two_articles "newsarticle" = [d1; d2])
    by (vm_compute; reflexivity).
  assert (H : Forall (fun d => is_Some (created_time (doc_fields d)))
                (coll w_two_articles "newsarticle")).
  { rewrite Hc. constructor; [|constructor; [|constructor]].
    - exists 4. vm_compute. reflexivity.
    - exists 6. vm_compute. reflexivity. }
  split; [exact H|]. split; [vm_compute; reflexivity|].
  destruct (list_is_newest_first "newsarticle" 50 w_two_articles H)
    as (items & Hrun & Hsorted).
  exists items. split; [exact Hrun|]. split; [|exact Hsorted].
  assert (Hitems : fst (public_list "newsarticle" 50 w_two_articles)
                   = Return items) by (by rewrite Hrun).
  assert (Hmap : match fst (public_list "newsarticle" 50 w_two_articles) with
                 | Return l => map created_time l
                 | Raise _ => []
                 end = [Some 6; Some 4]) by (vm_compute; reflexivity).
  rewrite Hitems in Hmap. exact Hmap.
Defined.

Lemma created_identifier_reaches_document_witness :
  let result := create_item demo_env "newsarticle" demo_article w_login in
  schema_map !! "newsarticle" = Some NewsArticle
  /\ length (oid_supply demo_env (oids_issued w_login)) = 12%nat
  /\ result = (Return demo_article_id, snd result)
  /\ exists d, obj_id demo_article_id (snd result)
               = (Return (doc_id d), snd result).
Proof.
  cbv zeta.
  assert (H : create_item demo_env "newsarticle" demo_article w_login
              = (Return demo_article_id,
                 snd (create_item demo_env "newsarticle" demo_article w_login)))
    by (vm_compute; reflexivity).
  split; [reflexivity|]. split; [reflexivity|]. split; [exact H|].
  destruct (created_identifier_reaches_document demo_env "newsarticle"
              NewsArticle demo_article w_login demo_article_id _
              eq_refl eq_refl H) as (d & _ & Hdec & _).
  exists d. exact Hdec.
Defined.

Lemma test_database_report_witness :
  let db := Some (mkDbHandle (Some "school") (inr ["user"; "session"])) in
  let r := test_database db (fun _ => None) in
  db <> None
  /\ connection_status r = "Connected"
  /\ collections r = ["user"; "session"].
Proof.
  cbv zeta.
  assert (H : Some (mkDbHandle (Some "school") (inr ["user"; "session"]))
              <> None) by discriminate.
  split; [exact H|].
  pose proof (test_database_report
                (Some (mkDbHandle (Some "school") (inr ["user"; "session"])))
                (fun _ => None)) as (Hconn & _ & _ & Hcoll & _).
  split; [exact (proj2 Hconn H)|].
  exact (Hcoll _ _ eq_refl eq_refl).
Defined.

Lemma create_then_list_witness :
  let result := create_item demo_env "newsarticle" demo_article w_login in
  schema_map !! "newsarticle" = Some NewsArticle
  /\ result = (Return demo_article_id, snd result)
  /\ exists items item,
       public_list "newsarticle" 0 (snd result) = (Return items, snd result)
       /\ item ∈ items
       /\ item !! "_id" = Some (VStr demo_article_id).
Proof.
  cbv zeta.
  assert (H : create_item demo_env "newsarticle" demo_article w_login
              = (Return demo_article_id,
                 snd (create_item demo_env "newsarticle" demo_article w_login)))
    by (vm_compute; reflexivity).
  split; [reflexivity|]. split; [exact H|].
  destruct (create_then_list demo_env "newsarticle" NewsArticle demo_article
              w_login demo_article_id _ 0 eq_refl H (or_introl eq_refl))
    as (items & item & Hrun & Hin & Hid & _).
  exists items, item. split; [exact Hrun|]. split; [exact Hin|exact Hid].
Defined.

Lemma two_logins_two_sessions_witness :
  let e := "caproktaroy03@gmail.com" in
  let w1 := snd (login demo_env e empty_world) in
  let w2 := snd (login demo_env e w1) in
  let t1 := login_token demo_env empty_world in
  let t2 := login_token demo_env w1 in
  Str.lower e = MASTER_ADMIN_EMAIL
  /\ map (entropy demo_env) (seq (entropy_used empty_world) 24)
     <> map (entropy demo_env) (seq (entropy_used empty_world + 24) 24)
  /\ t1 <> t2
  /\ ensure_admin (Some t1) w2 = (Return (VStr MASTER_ADMIN_EMAIL), w2)
  /\ ensure_admin (Some t2) w2 = (Return (VStr MASTER_ADMIN_EMAIL), w2).
Proof.
  cbv zeta.
  assert (H1 : Str.lower "caproktaroy03@gmail.com" = MASTER_ADMIN_EMAIL)
    by reflexivity.
  assert (H2 : map (entropy demo_env) (seq (entropy_used empty_world) 24)
               <> map (entropy demo_env)
                    (seq (entropy_used empty_world + 24) 24))
    by (intros H; vm_compute in H; discriminate).
  assert (H3 : Forall
                 (fun x =>
                    has_token (login_token demo_env empty_world) x = false
                    /\ has_token
                         (login_token demo_env
                            (snd (login demo_env "caproktaroy03@gmail.com"
                                    empty_world))) x = false)
                 (coll empty_world "session")).
  { assert (coll empty_world "session" = []) as -> by reflexivity.
    constructor. }
  split; [exact H1|]. split; [exact H2|].
  destruct (two_logins_two_sessions demo_env _ empty_world H1 H2 H3)
    as (Hne & Hg1 & Hg2 & _).
  split; [exact Hne|]. split; [exact Hg1|exact Hg2].
Defined.
